(** * UnwantedRecordsFBRefScraper: a shallow embedding and its properties

    The program scrapes six statistics tables with a headless browser,
    turns each into a pandas DataFrame, converts the columns that hold
    numbers, and prints five "unwanted records" (for instance the most
    shots without a goal).

    The embedding follows the Python source function by function:
    - [Py]      exceptions, [str.split], [str.strip];
    - [Soup]    the parsed page (BeautifulSoup tree) and its queries;
    - [Pandas]  DataFrames as labelled, typed columns;
    - [Scraper] the functions and the top-level statements of the script.
*)

From Stdlib Require Import ZArith QArith Ascii String List Lia Bool.
From Stdlib Require Decimal DecimalString.
From stdpp Require Import base option list strings gmap.

Local Open Scope string_scope.
Local Open Scope list_scope.

(** ** Python values the script relies on *)

Module Py.

(** The exceptions the script can die with.  [WebDriverException] stands
    for any failure of [driver.get]. *)
Inductive exception :=
  | AttributeError
  | KeyError
  | IndexError
  | TypeError
  | ValueError
  | WebDriverException.

Inductive result (A : Type) :=
  | Ok (a : A)
  | Raise (e : exception).
Arguments Ok {A} a.
Arguments Raise {A} e.

#[global] Instance result_ret : MRet result := fun _ a => Ok a.
#[global] Instance result_bind : MBind result := fun _ _ f m =>
  match m with
  | Ok a => f a
  | Raise e => Raise e
  end.
#[global] Instance result_fmap : FMap result := fun _ _ f m =>
  match m with
  | Ok a => Ok (f a)
  | Raise e => Raise e
  end.

(** Attribute access on a value that may be [None]. *)
Definition deref {A} (o : option A) : result A :=
  match o with
  | Some a => Ok a
  | None => Raise AttributeError
  end.

(** [str.isspace] for one character.  A [str] is modelled as a [string]
    whose characters are the code points below 256; the whitespace ones
    are TAB..CR, FS..US, SPACE, NEL and NBSP. *)
Definition isspace (c : ascii) : bool :=
  let n := N_of_ascii c in
  ((9 <=? n) && (n <=? 13) || (28 <=? n) && (n <=? 32)
   || (n =? 133) || (n =? 160))%N.

Fixpoint string_forall (p : ascii -> bool) (s : string) : bool :=
  match s with
  | EmptyString => true
  | String c s' => p c && string_forall p s'
  end.

Definition all_space (s : string) : bool := string_forall isspace s.
Definition no_space (s : string) : bool :=
  string_forall (fun c => negb (isspace c)) s.

(** The word under construction becomes a token when a separator or the
    end of the text is reached; nothing is emitted for an empty word. *)
Definition emit (word : string) : list string :=
  match word with
  | EmptyString => []
  | _ => [word]
  end.

(** [s.split()] with no separator: the maximal runs of non-whitespace
    characters, left to right.  [word] holds the run read so far. *)
Fixpoint split_from (word s : string) : list string :=
  match s with
  | EmptyString => emit word
  | String c s' =>
      if isspace c then emit word ++ split_from EmptyString s'
      else split_from (word +:+ String c EmptyString) s'
  end.

Definition split (s : string) : list string := split_from EmptyString s.

Fixpoint lstrip (s : string) : string :=
  match s with
  | EmptyString => EmptyString
  | String c s' => if isspace c then lstrip s' else s
  end.

Definition string_rev (s : string) : string :=
  string_of_list_ascii (rev (list_ascii_of_string s)).

Definition rstrip (s : string) : string := string_rev (lstrip (string_rev s)).

(** [s.strip()] *)
Definition strip (s : string) : string := rstrip (lstrip s).

End Py.
Export Py.

(** ** The surname reducer (source lines 130-145) *)

(** [full_name.split()[-1]]: indexing the empty token list raises
    [IndexError]. *)
Definition extract_surname (full_name : string) : result string :=
  match last (split full_name) with
  | Some token => Ok token
  | None => Raise IndexError
  end.

(** ** The parsed page *)

Module Soup.

(** A BeautifulSoup tree: text leaves and tags with their attribute
    dictionary (kept as an association list) and their children. *)
#[local] Unset Elimination Schemes.
Inductive node :=
  | NavigableString (text : string)
  | Tag (name : string) (attrs : list (string * string)) (contents : list node).
#[local] Set Elimination Schemes.

(** [tag[key]] looks the attribute up; [get] is the [option] form. *)
Fixpoint get (key : string) (attrs : list (string * string)) : option string :=
  match attrs with
  | [] => None
  | (k, v) :: rest => if String.eqb k key then Some v else get key rest
  end.

Definition getitem (tag : node) (key : string) : result string :=
  match tag with
  | Tag _ attrs _ =>
      match get key attrs with
      | Some v => Ok v
      | None => Raise KeyError
      end
  | NavigableString _ => Raise TypeError
  end.

(** All nodes below [n], in document order. *)
Fixpoint descendants (n : node) : list node :=
  match n with
  | NavigableString _ => []
  | Tag _ _ contents => flat_map (fun c => c :: descendants c) contents
  end.

(** A tag matches when its name is [name] and every requested attribute
    has the requested value. *)
Definition matches (name : string) (want : list (string * string)) (n : node) : bool :=
  match n with
  | NavigableString _ => false
  | Tag nm attrs _ =>
      String.eqb nm name
      && forallb (fun kv => match get (fst kv) attrs with
                            | Some v => String.eqb v (snd kv)
                            | None => false
                            end) want
  end.

(** [tag.find_all(name, attrs)] *)
Definition find_all (name : string) (want : list (string * string)) (n : node) : list node :=
  List.filter (matches name want) (descendants n).

(** [tag.find(name, attrs)]: the first match, or [None]. *)
Definition find (name : string) (want : list (string * string)) (n : node) : option node :=
  head (find_all name want n).

(** [tag.text]: the text leaves below the tag, concatenated. *)
Fixpoint text (n : node) : string :=
  match n with
  | NavigableString s => s
  | Tag _ _ contents => fold_right (fun c acc => text c +:+ acc) EmptyString contents
  end.

End Soup.

(** ** DataFrames *)

Module Pandas.

(** A float64 cell.  Finite values are kept as exact rationals (rounding
    is not modelled); [NaN] is the missing number. *)
Inductive float64 :=
  | NaN
  | Finite (q : Q).

(** A numeric scalar: a Python [int] or numpy int64, or a float64. *)
Inductive number :=
  | Int64 (z : Z)
  | Float64 (f : float64).

(** A column.  An object column holds [str] cells or [None]. *)
Inductive series :=
  | ObjectSeries (values : list (option string))
  | IntSeries (values : list Z)
  | FloatSeries (values : list float64).

(** One cell read out of a column. *)
Inductive value :=
  | VNone
  | VStr (s : string)
  | VInt (z : Z)
  | VFloat (f : float64).

(** Row labels and labelled columns, in order.  A label may repeat, as
    the headers of the page decide: [getitem_any] is [df[col]] in
    general, [getitem] is [df[col]] on a table with pairwise distinct
    labels, where it is one column. *)
Record frame := DataFrame_ {
  index : list nat;
  columns : list (string * series)
}.

Definition labels (df : frame) : list string := (columns df).*1.

Definition unique_labels (df : frame) : Prop := NoDup (labels df).

Definition size (s : series) : nat :=
  match s with
  | ObjectSeries vs => length vs
  | IntSeries vs => length vs
  | FloatSeries vs => length vs
  end.

(** Every column has one cell per row label. *)
Definition aligned (df : frame) : Prop :=
  Forall (fun c => size c.2 = length (index df)) (columns df).

Definition object_value (o : option string) : value :=
  match o with
  | Some t => VStr t
  | None => VNone
  end.

(** [series.values] *)
Definition cells (s : series) : list value :=
  match s with
  | ObjectSeries vs => object_value <$> vs
  | IntSeries vs => VInt <$> vs
  | FloatSeries vs => VFloat <$> vs
  end.

Definition cell (s : series) (i : nat) : option value := cells s !! i.

(** [pd.isna] on a cell *)
Definition isnull (v : value) : bool :=
  match v with
  | VNone | VFloat NaN => true
  | _ => false
  end.

(** [pd.DataFrame(data, columns=headers)] for a list of rows, each as
    long as [headers]: every column has dtype object. *)
Definition DataFrame (data : list (list (option string))) (headers : list string) : frame :=
  {| index := seq 0 (length data);
     columns := imap (fun j h => (h, ObjectSeries ((fun row => mjoin (row !! j)) <$> data))) headers |}.

(** [df[col]]; [KeyError] when there is no such column. *)
Fixpoint lookup_column (col : string) (cols : list (string * series)) : result series :=
  match cols with
  | [] => Raise KeyError
  | (c, s) :: rest => if String.eqb c col then Ok s else lookup_column col rest
  end.

Definition getitem (df : frame) (col : string) : result series :=
  lookup_column col (columns df).

(** [df[col] = s] for a column that exists: the column is replaced in
    place, the others keep their position; a new label is appended. *)
Fixpoint assign_column (col : string) (s : series) (cols : list (string * series))
  : list (string * series) :=
  match cols with
  | [] => [(col, s)]
  | (c, old) :: rest =>
      if String.eqb c col then (c, s) :: rest
      else (c, old) :: assign_column col s rest
  end.

Definition setitem (df : frame) (col : string) (s : series) : frame :=
  {| index := index df; columns := assign_column col s (columns df) |}.

(** The entries of [l] at the positions where [mask] is [True]. *)
Fixpoint select {A} (mask : list bool) (l : list A) : list A :=
  match mask, l with
  | b :: mask', x :: l' => if b then x :: select mask' l' else select mask' l'
  | _, _ => []
  end.

Definition select_series (mask : list bool) (s : series) : series :=
  match s with
  | ObjectSeries vs => ObjectSeries (select mask vs)
  | IntSeries vs => IntSeries (select mask vs)
  | FloatSeries vs => FloatSeries (select mask vs)
  end.

(** [df[mask]] for a boolean mask with one entry per row *)
Definition getitem_mask (df : frame) (mask : list bool) : frame :=
  {| index := select mask (index df);
     columns := prod_map id (select_series mask) <$> columns df |}.

Definition notnull_at (i : nat) (s : series) : bool :=
  match cell s i with
  | Some v => negb (isnull v)
  | None => true
  end.

(** [df.dropna()]: keep the rows without a null cell. *)
Definition dropna (df : frame) : frame :=
  getitem_mask df
    ((fun i => forallb (fun c => notnull_at i c.2) (columns df)) <$> seq 0 (length (index df))).

(** *** Numbers *)

Definition to_float (n : number) : float64 :=
  match n with
  | Int64 z => Finite (inject_Z z)
  | Float64 f => f
  end.

Definition as_int (n : number) : option Z :=
  match n with
  | Int64 z => Some z
  | Float64 _ => None
  end.

(** [==] and [<] on float64: comparisons with [NaN] are false. *)
Definition float_eqb (a b : float64) : bool :=
  match a, b with
  | Finite p, Finite q => Qeq_bool p q
  | _, _ => false
  end.

Definition float_ltb (a b : float64) : bool :=
  match a, b with
  | Finite p, Finite q => negb (Qle_bool q p)
  | _, _ => false
  end.

(** [a == b] on cells: numbers compare by value across int and float, a
    [str] equals only the same [str], and [None] equals nothing. *)
Definition value_eqb (a b : value) : bool :=
  match a, b with
  | VInt x, VInt y => Z.eqb x y
  | VInt x, VFloat g => float_eqb (Finite (inject_Z x)) g
  | VFloat f, VInt y => float_eqb f (Finite (inject_Z y))
  | VFloat f, VFloat g => float_eqb f g
  | VStr s, VStr t => String.eqb s t
  | _, _ => false
  end.

(** [series == x] *)
Definition eq_scalar (s : series) (x : value) : list bool :=
  (fun v => value_eqb v x) <$> cells s.

(** [a & b] on aligned boolean columns *)
Definition mask_and (a b : list bool) : list bool := zip_with andb a b.

(** [series.values[0]] *)
Definition values0 (s : series) : result value :=
  match cells s with
  | v :: _ => Ok v
  | [] => Raise IndexError
  end.

(** The rows at the given positions, in that order. *)
Definition take {A} (positions : list nat) (l : list A) : list A :=
  omap (fun p => l !! p) positions.

Definition take_series (positions : list nat) (s : series) : series :=
  match s with
  | ObjectSeries vs => ObjectSeries (take positions vs)
  | IntSeries vs => IntSeries (take positions vs)
  | FloatSeries vs => FloatSeries (take positions vs)
  end.

Definition take_rows (positions : list nat) (df : frame) : frame :=
  {| index := take positions (index df);
     columns := prod_map id (take_series positions) <$> columns df |}.

(** The first position holding the largest entry: a later entry replaces
    the best one only when it is strictly larger. *)
Fixpoint first_max {A} (lt : A -> A -> bool) (best : nat * A) (l : list (nat * A)) : nat * A :=
  match l with
  | [] => best
  | x :: l' => first_max lt (if lt best.2 x.2 then x else best) l'
  end.

Definition argmax {A} (lt : A -> A -> bool) (l : list (nat * A)) : option nat :=
  match l with
  | [] => None
  | x :: l' => Some (first_max lt x l').1
  end.

Definition enumerate {A} (l : list A) : list (nat * A) := imap pair l.

Definition finite_part (x : nat * float64) : option (nat * Q) :=
  match x.2 with
  | Finite q => Some (x.1, q)
  | NaN => None
  end.

(** Position of the row [nlargest(1, col)] keeps: the first largest
    number, [NaN] cells set aside; a column of [NaN] only yields its
    first row, an empty one none.  An object column is refused. *)
Definition largest_position (s : series) : result (option nat) :=
  match s with
  | ObjectSeries _ => Raise TypeError
  | IntSeries vs => Ok (argmax Z.ltb (enumerate vs))
  | FloatSeries vs =>
      match argmax (fun p q => negb (Qle_bool q p)) (omap finite_part (enumerate vs)) with
      | Some i => Ok (Some i)
      | None => Ok (match vs with [] => None | _ => Some 0 end)
      end
  end.

(** [df.nlargest(1, col)] *)
Definition nlargest1 (col : string) (df : frame) : result frame :=
  s ← getitem df col;
  pos ← largest_position s;
  Ok (take_rows (option_list pos) df).

(** *** [pd.to_numeric(arg, errors='ignore')] *)

(** What [df[col]] is: the column when the label occurs once, a
    DataFrame of the columns of that name when it is repeated. *)
Inductive selection :=
  | OneColumn (s : series)
  | SubFrame (cols : list series).

Definition getitem_any (df : frame) (col : string) : result selection :=
  match List.filter (fun c => String.eqb c.1 col) (columns df) with
  | [] => Raise KeyError
  | [c] => Ok (OneColumn c.2)
  | cols => Ok (SubFrame (cols.*2))
  end.

Definition int64_min : Z := (- 2 ^ 63)%Z.
Definition int64_max : Z := (2 ^ 63 - 1)%Z.
Definition uint64_max : Z := (2 ^ 64 - 1)%Z.

(** An integer that fits neither int64 nor uint64: pandas gives up
    ("Integer out of range"). *)
Definition out_of_range (n : number) : bool :=
  match n with
  | Int64 z => (z <? int64_min)%Z || (uint64_max <? z)%Z
  | Float64 _ => false
  end.

Definition is_uint (n : number) : bool :=
  match n with
  | Int64 z => (int64_max <? z)%Z
  | Float64 _ => false
  end.

Definition is_sint (n : number) : bool :=
  match n with
  | Int64 z => (z <? 0)%Z
  | Float64 _ => false
  end.

Definition is_null (n : number) : bool :=
  match n with
  | Float64 NaN => true
  | _ => false
  end.

(** An integer that needs uint64 next to a negative integer or a missing
    value: no integer type holds the column. *)
Definition uint64_conflict (ns : list number) : bool :=
  existsb is_uint ns && (existsb is_null ns || existsb is_sint ns).

(** The column of the numbers read, if they fit one type: integers
    (int64, or uint64 when one needs it; [IntSeries] stands for both)
    when every cell is an integer, float64 otherwise. *)
Definition numeric_series (ns : list number) : option series :=
  if existsb out_of_range ns || uint64_conflict ns then None
  else Some (match mapM as_int ns with
             | Some zs => IntSeries zs
             | None => FloatSeries (to_float <$> ns)
             end).

Section to_numeric.

(** How pandas reads one [str] cell as a number, if it does. *)
Variable parse : string -> option number.

(** A missing cell is read as [NaN]. *)
Definition cell_number (o : option string) : option number :=
  match o with
  | Some t => parse t
  | None => Some (Float64 NaN)
  end.

(** On one column: the column converted when every cell is read and the
    numbers fit one type; the column itself otherwise ([errors='ignore']),
    or when it is numeric already. *)
Definition to_numeric (s : series) : series :=
  match s with
  | ObjectSeries vs =>
      match mapM cell_number vs ≫= numeric_series with
      | Some s' => s'
      | None => s
      end
  | _ => s
  end.

(** On what [df[col]] gives: a DataFrame is refused with [TypeError]
    ("arg must be a list, tuple, 1-d array, or Series"), whatever
    [errors] says. *)
Definition pd_to_numeric (arg : selection) : result series :=
  match arg with
  | OneColumn s => Ok (to_numeric s)
  | SubFrame _ => Raise TypeError
  end.

End to_numeric.

Definition is_numeric (s : series) : bool :=
  match s with
  | ObjectSeries _ => false
  | _ => true
  end.

(** *** Number literals

    The number syntax of pandas that the statistics tables use: the
    empty text (read as [NaN]), and an optional sign, digits with an
    optional fraction, and an optional exponent.  Digits alone give an
    integer, a fraction or an exponent gives a float.  Infinities and
    the words for them are left out. *)


Definition is_point (c : ascii) : bool := Ascii.eqb c ".".

Definition is_exp (c : ascii) : bool := Ascii.eqb c "e" || Ascii.eqb c "E".

(** The text before and after the first character that satisfies [p]. *)
Fixpoint split_when (p : ascii -> bool) (s : string) : option (string * string) :=
  match s with
  | EmptyString => None
  | String c s' =>
      if p c then Some (EmptyString, s')
      else match split_when p s' with
           | Some (a, b) => Some (String c a, b)
           | None => None
           end
  end.

Definition is_plus (c : ascii) : bool := Ascii.eqb c "+".

Definition is_minus (c : ascii) : bool := Ascii.eqb c "-".

(** An optional sign in front: its value and the rest. *)
Definition signed (s : string) : Z * string :=
  match s with
  | String c body =>
      if is_minus c then ((-1)%Z, body)
      else if is_plus c then (1%Z, body)
      else (1%Z, s)
  | EmptyString => (1%Z, s)
  end.

(** A run of digits, possibly empty. *)
Definition read_digits (s : string) : option Decimal.uint :=
  DecimalString.NilEmpty.uint_of_string s.

Definition nonempty (d : Decimal.uint) : bool :=
  match d with
  | Decimal.Nil => false
  | _ => true
  end.

(** Digits, or digits around a point with a digit on one side at least:
    the digits as one integer, the number of digits of the fraction, and
    whether there was no point. *)
Definition read_mantissa (s : string) : option (Z * nat * bool) :=
  match split_when is_point s with
  | None =>
      d ← read_digits s;
      if nonempty d then Some (Z.of_uint d, 0, true) else None
  | Some (whole, fraction) =>
      w ← read_digits whole;
      f ← read_digits fraction;
      if nonempty w || nonempty f
      then Some ((Z.of_uint w * 10 ^ Z.of_nat (Decimal.nb_digits f) + Z.of_uint f)%Z,
                 Decimal.nb_digits f, false)
      else None
  end.

Definition read_exponent (s : string) : option Z :=
  let '(sign, body) := signed s in
  d ← read_digits body;
  if nonempty d then Some (sign * Z.of_uint d)%Z else None.

(** [m] times ten to the [k] *)
Definition power10 (m k : Z) : Q :=
  if (0 <=? k)%Z then Qmake (m * 10 ^ k) 1 else Qmake m (Z.to_pos (10 ^ (- k))).

Definition parse_decimal (s : string) : option number :=
  match s with
  | EmptyString => Some (Float64 NaN)
  | _ =>
      let '(sign, body) := signed s in
      match split_when is_exp body with
      | None =>
          '(num, nf, integer) ← read_mantissa body;
          if integer : bool then Some (Int64 (sign * num))
          else Some (Float64 (Finite (Qmake (sign * num) (Z.to_pos (10 ^ Z.of_nat nf)))))
      | Some (mantissa, exponent) =>
          '(num, nf, _) ← read_mantissa mantissa;
          k ← read_exponent exponent;
          Some (Float64 (Finite (power10 (sign * num) (k - Z.of_nat nf))))
      end
  end.

(** *** The builtin [max] over a column (source line 168)

    [max] keeps its first argument and replaces it by a later one that
    compares greater.  Comparing [None] with a [str] is a [TypeError];
    an empty column is a [ValueError]. *)
Definition value_gt (candidate best : value) : result bool :=
  match candidate, best with
  | VInt x, VInt y => Ok (Z.ltb y x)
  | VInt x, VFloat g => Ok (float_ltb g (Finite (inject_Z x)))
  | VFloat f, VInt y => Ok (float_ltb (Finite (inject_Z y)) f)
  | VFloat f, VFloat g => Ok (float_ltb g f)
  | VStr s, VStr t => Ok (String.ltb t s)
  | _, _ => Raise TypeError
  end.

Fixpoint max_from (best : value) (rest : list value) : result value :=
  match rest with
  | [] => Ok best
  | v :: rest' =>
      gt ← value_gt v best;
      max_from (if gt : bool then v else best) rest'
  end.

Definition builtin_max (s : series) : result value :=
  match cells s with
  | [] => Raise ValueError
  | v :: rest => max_from v rest
  end.

End Pandas.

(** ** The script *)

Module Scraper.

Import Pandas.

(** *** [scrape_table], after the page is fetched (source lines 78-107) *)

(** The inner loop of lines 92-98: one cell per header, looked up in the
    row by its [data-stat] attribute; [None] when the row has no such
    cell.  (A tag that was found is always true in [if cell:].) *)
Definition row_data (headers : list string) (row : Soup.node) : list (option string) :=
  (fun header =>
     (fun cell => strip (Soup.text cell))
       <$> Soup.find "td" [("data-stat", header)] row) <$> headers.

Definition scrape_soup (soup : Soup.node) (table_id : string) : result frame :=
  let table := Soup.find "table" [("id", table_id)] soup in
  table ← deref table;
  thead ← deref (Soup.find "thead" [] table);
  let header_cells := Soup.find_all "th" [("scope", "col")] thead in
  headers ← mapM (fun header => Soup.getitem header "data-stat") header_cells;
  let headers := drop 1 headers in
  tbody ← deref (Soup.find "tbody" [] table);
  let rows := Soup.find_all "tr" [] tbody in
  let data := row_data headers <$> rows in
  let df := DataFrame data headers in
  let df := dropna df in
  Ok df.

(** *** The record queries (source lines 170-188) *)

(** [series.apply(extract_surname)]: a cell that is not a [str] has no
    [split] attribute. *)
Definition apply_extract_surname (s : series) : result (list string) :=
  mapM (fun v => match v with
                 | VStr full_name => extract_surname full_name
                 | _ => Raise AttributeError
                 end) (cells s).

(** The query each of the five records instantiates:
[[
highest = df[df[pc] == pv].nlargest(1, rc)[rc].values[0]
players = df[(df[pc] == pv) & (df[rc] == highest)]['player'].apply(extract_surname)
]] *)
Definition find_top (df : frame) (predicate_column : string) (predicate_value : value)
    (rank_column : string) : result (value * list string) :=
  p ← getitem df predicate_column;
  top ← nlargest1 rank_column (getitem_mask df (eq_scalar p predicate_value));
  r ← getitem top rank_column;
  highest ← values0 r;
  p ← getitem df predicate_column;
  r ← getitem df rank_column;
  let selected := getitem_mask df (mask_and (eq_scalar p predicate_value) (eq_scalar r highest)) in
  players ← getitem selected "player";
  names ← apply_extract_surname players;
  Ok (highest, names).

(** *** Objects and the running script

    DataFrames are mutable objects: a variable holds a reference, and the
    heap maps references to the current content of the object. *)

Definition ref := nat.

Record world := World {
  session : bool;                (* the browser behind [driver] is running *)
  heap : gmap ref frame;         (* the DataFrame objects *)
  dataframes : gmap string ref   (* the dict [dataframes] *)
}.

(** A statement runs in a world and leaves a world, with a value or with
    the exception that stops the script. *)
Definition script (A : Type) : Type := world -> result A * world.

#[global] Instance script_ret : MRet script := fun _ a w => (Ok a, w).
#[global] Instance script_bind : MBind script := fun _ _ f m w =>
  match m w with
  | (Ok a, w') => f a w'
  | (Raise e, w') => (Raise e, w')
  end.

Definition lift {A} (r : result A) : script A := fun w => (r, w).

Fixpoint for_each {A} (body : A -> script ()) (l : list A) : script () :=
  match l with
  | [] => mret ()
  | x :: l' => body x;; for_each body l'
  end.

Definition empty_frame : frame := {| index := []; columns := [] |}.

(** The object behind a reference. *)
Definition load (r : ref) : script frame :=
  fun w => (Ok (default empty_frame (heap w !! r)), w).

Definition store (r : ref) (df : frame) : script () :=
  fun w => (Ok (), World (session w) (<[r := df]> (heap w)) (dataframes w)).

(** A new object gets a reference not in use. *)
Definition alloc (df : frame) : script ref :=
  fun w => let r := fresh (dom (heap w)) in
           (Ok r, World (session w) (<[r := df]> (heap w)) (dataframes w)).

(** [dataframes[key] = df] and [dataframes[key]] *)
Definition dataframes_set (key : string) (df : ref) : script () :=
  fun w => (Ok (), World (session w) (heap w) (<[key := df]> (dataframes w))).

Definition dataframes_get (key : string) : script ref :=
  fun w => (match dataframes w !! key with
            | Some r => Ok r
            | None => Raise KeyError
            end, w).

(** [driver.quit()] *)
Definition driver_quit : script () :=
  fun w => (Ok (), World false (heap w) (dataframes w)).

Section script.

(** [pd.to_numeric]'s reading of a [str] cell. *)
Variable parse : string -> option number.

(** The site as the browser shows it: what [driver.get(url)],
    [driver.page_source] and [BeautifulSoup(..., "html.parser")] give for
    a URL, or the exception of the browser. *)
Variable web : string -> result Soup.node.

(** [scrape_table] (source lines 54-107); the frame it builds is a new
    object. *)
Definition scrape_table (url table_id : string) : script ref :=
  soup ← lift (web url);
  df ← lift (scrape_soup soup table_id);
  alloc df.

(** [df[col] = pd.to_numeric(df[col], errors='ignore')] on the object
    behind [df]. *)
Definition convert_column (df : ref) (col : string) : script () :=
  obj ← load df;
  arg ← lift (getitem_any obj col);
  s ← lift (pd_to_numeric parse arg);
  store df (setitem obj col s).

(** [convert_columns_to_numeric] (source lines 111-126) *)
Definition convert_columns_to_numeric (df : ref) : script ref :=
  obj ← load df;
  for_each (convert_column df) (labels obj);;
  mret df.

Record page := Page {
  url : string;
  table_id : string;
  csv_name : string
}.

Definition pages : list page :=
  [ Page "https://fbref.com/en/comps/9/stats/Premier-League-Stats"
         "stats_standard" "standard_stats.csv";
    Page "https://fbref.com/en/comps/9/shooting/Premier-League-Stats"
         "stats_shooting" "shooting_stats.csv";
    Page "https://fbref.com/en/comps/9/passing/Premier-League-Stats"
         "stats_passing" "passing_stats.csv";
    Page "https://fbref.com/en/comps/9/defense/Premier-League-Stats"
         "stats_defense" "defensive_actions_stats.csv";
    Page "https://fbref.com/en/comps/9/playingtime/Premier-League-Stats"
         "stats_playing_time" "playing_time_stats.csv";
    Page "https://fbref.com/en/comps/9/misc/Premier-League-Stats"
         "stats_misc" "miscellaneous_stats.csv" ].

(** The body of the loop of lines 150-154; the progress line it prints
    first is left out. *)
Definition scrape_page (p : page) : script () :=
  df ← scrape_table (url p) (table_id p);
  df ← convert_columns_to_numeric df;
  dataframes_set (table_id p) df.

(** The frame a table identifier is bound to *)
Definition dataframe (key : string) : script frame :=
  r ← dataframes_get key;
  load r.

(** What the final [print] shows: the game week and the five records. *)
Record report := Report {
  GW : value;
  shots_no_goal : value * list string;
  xg_no_goal : value * list string;
  xag_no_assist : value * list string;
  kp_no_assist : value * list string;
  ppa_no_assist : value * list string
}.

(** The top-level statements, lines 148-201, for a list of pages. *)
Definition main_on (ps : list page) : script report :=
  for_each scrape_page ps;;
  driver_quit;;
  standard_stats ← dataframe "stats_standard";
  shooting_stats ← dataframe "stats_shooting";
  passing_stats ← dataframe "stats_passing";
  defensive_actions_stats ← dataframe "stats_defense";
  playing_time_stats ← dataframe "stats_playing_time";
  miscellaneous_stats ← dataframe "stats_misc";
  games ← lift (getitem standard_stats "games");
  gw ← lift (builtin_max games);
  r1 ← lift (find_top shooting_stats "goals" (VInt 0) "shots");
  r2 ← lift (find_top standard_stats "goals" (VInt 0) "xg");
  r3 ← lift (find_top standard_stats "assists" (VInt 0) "xg_assist");
  r4 ← lift (find_top passing_stats "assists" (VInt 0) "assisted_shots");
  r5 ← lift (find_top passing_stats "assists" (VInt 0) "passes_into_penalty_area");
  mret (Report gw r1 r2 r3 r4 r5).

Definition main : script report := main_on pages.

End script.

(** The world when the loop starts: the browser was started at line 16,
    no DataFrame exists yet. *)
Definition initial : world := World true ∅ ∅.

End Scraper.

(** ** Sample inputs *)

Module Samples.

Import Soup Pandas Scraper.

Definition td (stat txt : string) : node :=
  Tag "td" [("data-stat", stat)] [NavigableString txt].

Definition th (stat : string) : node :=
  Tag "th" [("scope", "col"); ("data-stat", stat)] [NavigableString stat].

Definition ranker (txt : string) : node :=
  Tag "th" [("scope", "row"); ("data-stat", "ranker")] [NavigableString txt].

(** A shooting table as the site lays it out: a header row repeated
    inside the body, and a row with an empty cell. *)
Definition shooting_page : node :=
  Tag "[document]" []
    [Tag "html" []
       [Tag "table" [("class", "stats_table"); ("id", "stats_shooting")]
          [Tag "thead" []
             [Tag "tr" [] [th "ranker"; th "player"; th "goals"; th "shots"]];
           Tag "tbody" []
             [Tag "tr" [] [ranker "1"; td "player" " Erling Haaland ";
                           td "goals" "0"; td "shots" "5"];
              Tag "tr" [("class", "thead")] [th "ranker"; th "player"];
              Tag "tr" [] [ranker "2"; td "player" "Neymar";
                           td "goals" EmptyString; td "shots" "7"]]]]].

(** The same table without its [thead]. *)
Definition headless_page : node :=
  Tag "[document]" []
    [Tag "table" [("id", "stats_shooting")]
       [Tag "tbody" [] [Tag "tr" [] [td "player" "Neymar"]]]].

(** A page whose only table has another identifier. *)
Definition other_page : node :=
  Tag "[document]" []
    [Tag "table" [("id", "stats_keepers")]
       [Tag "thead" [] [Tag "tr" [] [th "ranker"; th "player"]];
        Tag "tbody" [] [Tag "tr" [] [ranker "1"; td "player" "Neymar"]]]].



(** Three players in text form, with a column that does not convert. *)
Definition text_table : frame :=
  {| index := [0; 1; 2];
     columns := [("player", ObjectSeries [Some "A"; Some "B"; Some "C"]);
                 ("minutes", ObjectSeries [Some "12"; Some "7"; Some "n/a"]);
                 ("goals", ObjectSeries [Some "0"; Some "0"; Some "1"]);
                 ("xg", ObjectSeries [Some "0.4"; Some "1"; Some "2.25"])] |}.

(** A world whose only object is [df]. *)
Definition world_of (df : frame) : world := World true {[ 0 := df ]} ∅.

Definition text_world : world := world_of text_table.


(** The three players of the tie example. *)
Definition tie_table : frame :=
  {| index := [0; 1; 2];
     columns := [("player", ObjectSeries [Some "A"; Some "B"; Some "C"]);
                 ("goals", IntSeries [0; 0; 1]%Z);
                 ("shots", IntSeries [5; 5; 9]%Z)] |}.

(** The same table as the extraction delivers it, in text. *)
Definition tie_table_text : frame :=
  {| index := [0; 1; 2];
     columns := [("player", ObjectSeries [Some "A"; Some "B"; Some "C"]);
                 ("goals", ObjectSeries [Some "0"; Some "0"; Some "1"]);
                 ("shots", ObjectSeries [Some "5"; Some "5"; Some "9"])] |}.

(** Two players who share the record and the surname. *)
Definition smith_table : frame :=
  {| index := [0; 1; 2];
     columns := [("player", ObjectSeries [Some "Adam Smith"; Some "John Smith"; Some "Erling Haaland"]);
                 ("goals", IntSeries [0; 0; 3]%Z);
                 ("shots", IntSeries [6; 6; 9]%Z)] |}.

(** Expected goals: a float64 rank column. *)
Definition xg_table : frame :=
  {| index := [0; 1; 2];
     columns := [("player", ObjectSeries [Some "Adam Smith"; Some "John Smith"; Some "Erling Haaland"]);
                 ("goals", IntSeries [0; 0; 2]%Z);
                 ("xg", FloatSeries [Finite (15 # 10); Finite (15 # 10); Finite (41 # 10)])] |}.

(** Nobody without a goal, and minutes that did not convert. *)
Definition unranked_table : frame :=
  {| index := [0; 1];
     columns := [("player", ObjectSeries [Some "Erling Haaland"; Some "Neymar"]);
                 ("goals", IntSeries [2; 1]%Z);
                 ("minutes", ObjectSeries [Some "1,080"; Some "990"])] |}.


(** Nobody without a goal. *)
Definition scorers_table : frame :=
  {| index := [0; 1];
     columns := [("player", ObjectSeries [Some "Erling Haaland"; Some "Neymar"]);
                 ("goals", IntSeries [2; 1]%Z);
                 ("shots", IntSeries [6; 4]%Z)] |}.


(** A table in the layout of the site, from its identifier, the
    [data-stat] names and the rows of cell texts. *)
Definition table (id : string) (stats : list string) (rows : list (list string)) : node :=
  Tag "table" [("id", id)]
    [Tag "thead" [] [Tag "tr" [] (th "ranker" :: (th <$> stats))];
     Tag "tbody" []
       ((fun texts => Tag "tr" [] (ranker "1" :: zip_with td stats texts)) <$> rows)].

(** A small league: one page that holds the six tables. *)
Definition league_page : node :=
  Tag "[document]" []
    [table "stats_standard" ["player"; "games"; "goals"; "assists"; "xg"; "xg_assist"]
       [["Adam Smith"; "9"; "0"; "0"; "1.5"; "0.7"];
        ["John Smith"; "10"; "0"; "1"; "1.5"; "2.0"];
        ["Erling Haaland"; "10"; "2"; "0"; "4.1"; "0.9"]];
     table "stats_shooting" ["player"; "goals"; "shots"]
       [["Adam Smith"; "0"; "7"];
        ["John Smith"; "0"; "7"];
        ["Erling Haaland"; "2"; "3"]];
     table "stats_passing" ["player"; "assists"; "assisted_shots"; "passes_into_penalty_area"]
       [["Adam Smith"; "0"; "4"; "2"];
        ["John Smith"; "1"; "9"; "8"];
        ["Erling Haaland"; "0"; "3"; "5"]];
     table "stats_defense" ["player"] [["Adam Smith"]];
     table "stats_playing_time" ["player"] [["Adam Smith"]];
     table "stats_misc" ["player"] [["Adam Smith"]]].

Definition league_site (url : string) : result node := Ok league_page.

(** A site that answers the first request and then goes down. *)
Definition flaky_site (url : string) : result node :=
  if String.eqb url "https://fbref.com/en/comps/9/stats/Premier-League-Stats"
  then Ok league_page
  else Raise WebDriverException.

(** A site whose tables repeat a column in the header. *)
Definition repeated_page : node :=
  Tag "[document]" []
    [table "stats_standard" ["player"; "goals"; "goals"] [["Neymar"; "1"]]].

Definition repeated_site (url : string) : result node := Ok repeated_page.

(** A site on which no page has the expected table. *)
Definition changed_site (url : string) : result node := Ok other_page.

End Samples.

(** ** Vocabulary of the statements *)

Import Pandas Scraper.

(** [pre] is not empty and its last character is whitespace. *)
Definition ends_with_space (pre : string) : Prop :=
  exists p c, pre = p +:+ String c EmptyString /\ isspace c = true.

(** [token] is the last whitespace-separated token of [s]: a non-empty
    run without whitespace, followed by whitespace only, and preceded by
    nothing or by whitespace. *)
Definition last_token (s token : string) : Prop :=
  exists pre suf,
    s = pre +:+ token +:+ suf
    /\ token <> EmptyString
    /\ no_space token = true
    /\ all_space suf = true
    /\ (pre = EmptyString \/ ends_with_space pre).

(** The Type Normalizer of the specification: every column is converted
    on its own, the labels and the rows stay. *)
Definition normalize (parse : string -> option number) (df : frame) : frame :=
  {| index := index df;
     columns := prod_map id (to_numeric parse) <$> columns df |}.

(** The world after the object behind [r] became [df]. *)
Definition with_object (r : ref) (df : frame) (w : world) : world :=
  World (session w) (<[r := df]> (heap w)) (dataframes w).

(** A cell that pandas reads as a number; a missing cell reads as [NaN]. *)
Definition parses (parse : string -> option number) (o : option string) : Prop :=
  is_Some (cell_number parse o).

(** No row of [df] has [pv] in column [pc]. *)
Definition no_row_satisfies (df : frame) (pc : string) (pv : value) : Prop :=
  forall p, getitem df pc = Ok p -> Forall (fun v => value_eqb v pv = false) (cells p).

Definition empty_like (s : series) : series :=
  match s with
  | ObjectSeries _ => ObjectSeries []
  | IntSeries _ => IntSeries []
  | FloatSeries _ => FloatSeries []
  end.

(** The surname of the player in a cell *)
Definition surname_of (v : value) (name : string) : Prop :=
  exists full_name, v = VStr full_name /\ extract_surname full_name = Ok name.

(** A statement that leaves the browser session as it found it. *)
Definition keeps_session {A} (m : script A) : Prop :=
  forall w, session (m w).2 = session w.

(** [t] is empty, or starts and ends with a character that is not
    whitespace. *)
Definition trimmed (t : string) : Prop :=
  t = EmptyString
  \/ ((exists c r, t = String c r /\ isspace c = false)
      /\ (exists r c, t = r +:+ String c EmptyString /\ isspace c = false)).

(** The text [scrape_table] takes for a header from a body row: the
    trimmed text of the row's [td] with that [data-stat], if there is
    one (source lines 94-98). *)
Definition cell_text (header : string) (row : Soup.node) : option string :=
  (fun cell => strip (Soup.text cell)) <$> Soup.find "td" [("data-stat", header)] row.

(** The row has a cell for every header. *)
Definition complete (headers : list string) (row : Soup.node) : bool :=
  forallb (fun header => match cell_text header row with
                         | Some _ => true
                         | None => false
                         end) headers.

(** Every statement of [m] takes a world to one related by [R]. *)
Definition stable (R : world -> world -> Prop) {A} (m : script A) : Prop :=
  forall w, R w (m w).2.

(** The objects that exist stay, and the dict is not touched. *)
Definition extends (w w' : world) : Prop :=
  dataframes w' = dataframes w
  /\ forall r, is_Some (heap w !! r) -> is_Some (heap w' !! r).

(** Every reference in the dict [dataframes] denotes an object. *)
Definition well_bound (w : world) : Prop :=
  forall key r, dataframes w !! key = Some r -> is_Some (heap w !! r).

(** No two keys of [dataframes] share an object. *)
Definition no_alias (w : world) : Prop :=
  forall k1 k2 r,
    dataframes w !! k1 = Some r -> dataframes w !! k2 = Some r -> k1 = k2.

(** Row [i] has the target [pv] in the predicate column [p]. *)
Definition qualifies (p : series) (pv : value) (i : nat) : Prop :=
  exists v, cell p i = Some v /\ value_eqb v pv = true.

(** A player cell that holds a name with at least one visible
    character. *)
Definition proper_name (o : option string) : Prop :=
  exists s, o = Some s /\ all_space s = false.

(** Only the object behind [r] may differ between the two worlds. *)
Definition only_changes (r : ref) (w w' : world) : Prop :=
  forall r0, r0 <> r -> heap w' !! r0 = heap w !! r0.

(** The exception of a query that selects no row. *)
Definition empty_selection_error (df : frame) (pc rc : string) : exception :=
  match getitem df pc, getitem df rc with
  | Raise _, _ => KeyError
  | Ok _, Raise _ => KeyError
  | Ok _, Ok (ObjectSeries _) => TypeError
  | Ok _, Ok _ => IndexError
  end.

(** *** Number literals and what they denote *)

(** The sign in front of a literal *)
Inductive sign :=
  | NoSign
  | Plus
  | Minus.



















(** * Properties *)

(** ** Strings *)

Lemma append_cons (x : ascii) (a b : string) :
  String x a +:+ b = String x (a +:+ b).
Proof. reflexivity. Qed.

Lemma append_assoc (a b c : string) : (a +:+ b) +:+ c = a +:+ (b +:+ c).
Proof.
  induction a as [|x a IH]; [reflexivity|].
  rewrite !append_cons. f_equal. exact IH.
Qed.

Lemma ends_with_space_cons (c : ascii) (pre : string) :
  ends_with_space pre -> ends_with_space (String c pre).
Proof.
  intros (p & d & -> & Hd). exists (String c p), d. split; [reflexivity | exact Hd].
Qed.

Lemma last_emit_app (word : string) (l : list string) (t : string) :
  last l = Some t -> last (emit word ++ l) = Some t.
Proof.
  intros H. rewrite last_app, H. reflexivity.
Qed.

(** What [split_from] ends with: nothing new when only whitespace is
    left, and otherwise the last token, glued to the pending word when
    no separator comes before it. *)
Lemma split_from_last (s : string) :
  forall word,
    if all_space s then split_from word s = emit word
    else exists pre tok suf,
        s = pre +:+ tok +:+ suf
        /\ tok <> EmptyString
        /\ no_space tok = true
        /\ all_space suf = true
        /\ ((pre = EmptyString /\ last (split_from word s) = Some (word +:+ tok))
            \/ (ends_with_space pre /\ last (split_from word s) = Some tok)).
Proof.
  induction s as [|c s IH]; intros word; [reflexivity|].
  unfold all_space in *. simpl.
  destruct (isspace c) eqn:Hc; simpl.
  - specialize (IH EmptyString).
    destruct (string_forall isspace s).
    + rewrite IH. simpl. apply app_nil_r.
    + destruct IH as (pre & tok & suf & -> & Hne & Hns & Hsuf & Hlast).
      exists (String c pre), tok, suf.
      repeat (split; [assumption || reflexivity|]).
      right. split.
      * destruct Hlast as [[-> _]|[Hpre _]].
        -- exists EmptyString, c. split; [reflexivity | exact Hc].
        -- now apply ends_with_space_cons.
      * apply last_emit_app.
        destruct Hlast as [[_ H]|[_ H]]; exact H.
  - specialize (IH (word +:+ String c EmptyString)).
    destruct (string_forall isspace s) eqn:Hs.
    + exists EmptyString, (String c EmptyString), s.
      split; [reflexivity|]. split; [discriminate|].
      split; [unfold no_space in *; simpl; now rewrite Hc|]. split; [exact Hs|].
      left. split; [reflexivity|]. rewrite IH.
      destruct word; reflexivity.
    + destruct IH as (pre & tok & suf & -> & Hne & Hns & Hsuf & Hlast).
      destruct Hlast as [[-> H]|[Hpre H]].
      * exists EmptyString, (String c tok), suf.
        split; [reflexivity|]. split; [discriminate|].
        split; [unfold no_space in *; simpl; now rewrite Hc|]. split; [exact Hsuf|].
        left. split; [reflexivity|].
        simpl in H |- *. rewrite H. f_equal. apply append_assoc.
      * exists (String c pre), tok, suf.
        repeat (split; [assumption || reflexivity|]).
        right. split; [now apply ends_with_space_cons | exact H].
Qed.

(** C10. The surname reducer is partial: on a string with at least one
    character that is not whitespace it returns the last
    whitespace-separated token; on the empty string and on a string of
    whitespace only it raises [IndexError] (the token list is empty and
    [[-1]] has nothing to index). *)
Theorem extract_surname_partial (full_name : string) :
  if all_space full_name
  then extract_surname full_name = Raise IndexError
  else exists token,
      last_token full_name token /\ extract_surname full_name = Ok token.
Proof.
  pose proof (split_from_last full_name EmptyString) as H.
  unfold extract_surname, split.
  destruct (all_space full_name).
  - rewrite H. reflexivity.
  - destruct H as (pre & tok & suf & Hs & Hne & Hns & Hsuf & Hlast).
    exists tok. split.
    + exists pre, suf. repeat (split; [assumption|]).
      destruct Hlast as [[H _]|[H _]]; [now left | now right].
    + destruct Hlast as [[_ H]|[_ H]]; rewrite H; reflexivity.
Qed.

Example surname_haaland : extract_surname "Erling Haaland" = Ok "Haaland".
Proof. reflexivity. Qed.

Example surname_neymar : extract_surname "Neymar" = Ok "Neymar".
Proof. reflexivity. Qed.

Example surname_blank : extract_surname "  " = Raise IndexError.
Proof. reflexivity. Qed.

(** ** Boolean masks *)

Lemma select_fmap {A B} (f : A -> B) (mask : list bool) (l : list A) :
  select mask (f <$> l) = f <$> select mask l.
Proof.
  revert l. induction mask as [|b mask IH]; intros [|x l]; simpl; try reflexivity.
  destruct b; simpl; now rewrite IH.
Qed.

(** An entry of the selection sits in the list at a position the mask
    marks. *)
Lemma select_lookup {A} (mask : list bool) (l : list A) (k : nat) (x : A) :
  select mask l !! k = Some x ->
  exists i, mask !! i = Some true /\ l !! i = Some x.
Proof.
  revert l k. induction mask as [|b mask IH]; intros [|y l] k H; simpl in H;
    try discriminate.
  destruct b.
  - destruct k as [|k]; simpl in H.
    + exists 0. split; [reflexivity | exact H].
    + destruct (IH _ _ H) as (i & Hm & Hl). exists (S i). now split.
  - destruct (IH _ _ H) as (i & Hm & Hl). exists (S i). now split.
Qed.

Lemma select_length {A B} (mask : list bool) (l : list A) (l' : list B) :
  length l = length l' -> length (select mask l) = length (select mask l').
Proof.
  revert l l'. induction mask as [|b mask IH]; intros [|x l] [|y l'] H;
    simpl in *; try reflexivity; try discriminate.
  injection H as H. destruct b; simpl; rewrite (IH l l' H); reflexivity.
Qed.

Lemma select_all_false {A} (mask : list bool) (l : list A) :
  Forall (fun b => b = false) mask -> select mask l = [].
Proof.
  intros H. revert l. induction H as [|b mask -> _ IH]; intros [|x l]; simpl;
    try reflexivity. apply IH.
Qed.

(** ** Columns and frames *)

Lemma size_cells (s : series) : size s = length (cells s).
Proof. destruct s; simpl; now rewrite length_fmap. Qed.

Lemma cells_select_series (mask : list bool) (s : series) :
  cells (select_series mask s) = select mask (cells s).
Proof. destruct s; simpl; now rewrite select_fmap. Qed.

Lemma columns_getitem_mask (df : frame) (mask : list bool) (c : string) (s : series) :
  (c, s) ∈ columns (getitem_mask df mask) ->
  exists s0, (c, s0) ∈ columns df /\ s = select_series mask s0.
Proof.
  unfold getitem_mask. simpl. intros H.
  apply list_elem_of_fmap in H as ([c0 s0] & Heq & Hin).
  injection Heq as -> ->. now exists s0.
Qed.

Lemma aligned_getitem_mask (df : frame) (mask : list bool) :
  aligned df -> aligned (getitem_mask df mask).
Proof.
  unfold aligned. rewrite !Forall_forall. intros H [c s] Hin.
  apply columns_getitem_mask in Hin as (s0 & Hin & ->). simpl.
  specialize (H _ Hin). simpl in H.
  rewrite size_cells, cells_select_series.
  apply select_length. now rewrite <- size_cells.
Qed.

Lemma aligned_DataFrame (data : list (list (option string))) (headers : list string) :
  aligned (DataFrame data headers).
Proof.
  unfold aligned, DataFrame. simpl. rewrite Forall_forall. intros [c s] Hin.
  apply list_elem_of_lookup in Hin as (j & Hj).
  rewrite list_lookup_imap in Hj.
  destruct (headers !! j); simpl in Hj; [|discriminate].
  injection Hj as <- <-. simpl. now rewrite length_fmap, length_seq.
Qed.

(** A row kept by [dropna] has a cell in every column, and none is null. *)
Lemma dropna_complete (df : frame) :
  aligned df ->
  forall c s i,
    (c, s) ∈ columns (dropna df) ->
    i < length (index (dropna df)) ->
    exists v, cell s i = Some v /\ isnull v = false.
Proof.
  intros Hal c s i Hin Hi.
  pose proof (aligned_getitem_mask df
    ((fun i => forallb (fun c => notnull_at i c.2) (columns df))
       <$> seq 0 (length (index df))) Hal) as Hal'.
  fold (dropna df) in Hal'.
  unfold aligned in Hal'. rewrite Forall_forall in Hal'.
  pose proof (Hal' _ Hin) as Hsize.
  change (size s = length (index (dropna df))) in Hsize.
  unfold cell.
  destruct (cells s !! i) as [v|] eqn:Hv.
  2:{ apply lookup_ge_None in Hv. rewrite size_cells in Hsize. lia. }
  exists v. split; [reflexivity|].
  unfold dropna in Hin.
  apply columns_getitem_mask in Hin as (s0 & Hin0 & ->).
  rewrite cells_select_series in Hv.
  apply select_lookup in Hv as (j & Hmask & Hj).
  rewrite list_lookup_fmap in Hmask.
  destruct (seq 0 (length (index df)) !! j) as [j'|] eqn:Hseq; [|discriminate].
  apply lookup_seq in Hseq as [-> _]. simpl in Hmask.
  injection Hmask as Hmask.
  rewrite forallb_forall in Hmask.
  specialize (Hmask (c, s0)). simpl in Hmask.
  assert (Hnn : notnull_at j s0 = true).
  { apply Hmask. now apply list_elem_of_In. }
  unfold notnull_at, cell in Hnn. rewrite Hj in Hnn.
  now apply negb_true_iff.
Qed.

(** ** Extraction *)

Lemma run_bind {A B} (m : script A) (f : A -> script B) (w : world) :
  (m ≫= f) w
  = match m w with
    | (Ok a, w') => f a w'
    | (Raise e, w') => (Raise e, w')
    end.
Proof. reflexivity. Qed.

Lemma bind_Ok {A B} (m : result A) (f : A -> result B) (b : B) :
  m ≫= f = Ok b -> exists a, m = Ok a /\ f a = Ok b.
Proof. destruct m as [a|e]; [now exists a | discriminate]. Qed.

Lemma scrape_soup_dropna (soup : Soup.node) (table_id : string) (df : frame) :
  scrape_soup soup table_id = Ok df ->
  exists data headers, df = dropna (DataFrame data headers).
Proof.
  unfold scrape_soup. intros H.
  apply bind_Ok in H as (table & _ & H).
  apply bind_Ok in H as (thead & _ & H).
  apply bind_Ok in H as (headers & _ & H).
  apply bind_Ok in H as (tbody & _ & H).
  injection H as <-. eauto.
Qed.

(** C3. Whatever the page and the table identifier, a table returned by
    the extraction has, in every row and every column, a cell that is
    not null: rows with a missing cell were dropped before the return. *)
Theorem scrape_soup_no_null (soup : Soup.node) (table_id : string) (df : frame) :
  scrape_soup soup table_id = Ok df ->
  forall i, i < length (index df) ->
  forall c s, (c, s) ∈ columns df ->
  exists v, cell s i = Some v /\ isnull v = false.
Proof.
  intros H i Hi c s Hin.
  apply scrape_soup_dropna in H as (data & headers & ->).
  eapply dropna_complete; eauto using aligned_DataFrame.
Qed.

Lemma scrape_soup_no_null_witness :
  exists df,
    scrape_soup Samples.shooting_page "stats_shooting" = Ok df
    /\ index df = [0; 2]
    /\ forall i, i < length (index df) -> forall c s, (c, s) ∈ columns df ->
        exists v, cell s i = Some v /\ isnull v = false.
Proof.
  eexists. split; [vm_compute; reflexivity|]. split; [reflexivity|].
  apply (scrape_soup_no_null Samples.shooting_page "stats_shooting").
  vm_compute; reflexivity.
Defined.

(** [scrape_table] itself: the page is fetched, the table extracted, and
    the frame becomes a new object; a failure leaves the world as it
    was. *)
Lemma scrape_table_run web (url table_id : string) (w : world) :
  scrape_table web url table_id w
  = match web url with
    | Raise e => (Raise e, w)
    | Ok soup =>
        match scrape_soup soup table_id with
        | Raise e => (Raise e, w)
        | Ok df => let r := fresh (dom (heap w)) in (Ok r, with_object r df w)
        end
    end.
Proof.
  unfold scrape_table. rewrite run_bind. unfold lift at 1.
  destruct (web url) as [soup|e]; [|reflexivity].
  rewrite run_bind. unfold lift at 1.
  destruct (scrape_soup soup table_id); reflexivity.
Qed.

(** C6, as stated, fails: no exception is reserved for the missing
    table.  Whatever exception one picks, either a page without the table
    does not raise it or a page that has the table raises it too. *)
Lemma no_missing_table_error :
  ~ exists NotFoundError,
      forall soup table_id,
        Soup.find "table" [("id", table_id)] soup = None
        <-> scrape_soup soup table_id = Raise NotFoundError.
Proof.
  intros (e & H).
  pose proof (proj1 (H Samples.other_page "stats_shooting") eq_refl) as H1.
  vm_compute in H1. injection H1 as <-.
  pose proof (proj2 (H Samples.headless_page "stats_shooting") eq_refl) as H2.
  vm_compute in H2. discriminate.
Qed.

(** C6, amended.  When the page has no table with the identifier, the
    extraction fails: [find] gives [None] and the access to its [thead]
    raises [AttributeError]. *)
Theorem scrape_soup_missing_table (soup : Soup.node) (table_id : string) :
  Soup.find "table" [("id", table_id)] soup = None ->
  scrape_soup soup table_id = Raise AttributeError.
Proof.
  intros H. unfold scrape_soup. rewrite H. reflexivity.
Qed.

Lemma scrape_soup_missing_table_witness :
  Soup.find "table" [("id", "stats_shooting")] Samples.other_page = None
  /\ scrape_soup Samples.other_page "stats_shooting" = Raise AttributeError.
Proof.
  split; [reflexivity|].
  apply (scrape_soup_missing_table Samples.other_page "stats_shooting").
  reflexivity.
Defined.

(** ** Normalization *)

Lemma lookup_column_app (col : string) (done rest : list (string * series)) :
  col ∉ done.*1 -> lookup_column col (done ++ rest) = lookup_column col rest.
Proof.
  induction done as [|[c s] done IH]; intros Hnot; [reflexivity|]. simpl.
  destruct (String.eqb_spec c col) as [->|Hne].
  - exfalso. apply Hnot. simpl. left.
  - apply IH. intros Hin. apply Hnot. simpl. now right.
Qed.

Lemma assign_column_app (col : string) (s s0 : series) (done rest : list (string * series)) :
  col ∉ done.*1 ->
  assign_column col s (done ++ (col, s0) :: rest) = done ++ (col, s) :: rest.
Proof.
  induction done as [|[c t] done IH]; intros Hnot; simpl.
  - now rewrite String.eqb_refl.
  - destruct (String.eqb_spec c col) as [->|Hne].
    + exfalso. apply Hnot. simpl. left.
    + f_equal. apply IH. intros Hin. apply Hnot. simpl. now right.
Qed.

Lemma is_numeric_numeric_series (ns : list number) (s : series) :
  numeric_series ns = Some s -> is_numeric s = true.
Proof.
  unfold numeric_series.
  destruct (existsb out_of_range ns || uint64_conflict ns); [discriminate|].
  intros [= <-]. destruct (mapM as_int ns); reflexivity.
Qed.

Lemma to_numeric_numeric (parse : string -> option number) (s : series) :
  is_numeric s = true -> to_numeric parse s = s.
Proof. destruct s; [discriminate | reflexivity | reflexivity]. Qed.

(** One column: left as it is when a cell is not read, and otherwise
    either left as it is or numeric. *)
Lemma to_numeric_object (parse : string -> option number) (vs : list (option string)) :
  (~ Forall (parses parse) vs -> to_numeric parse (ObjectSeries vs) = ObjectSeries vs)
  /\ (to_numeric parse (ObjectSeries vs) = ObjectSeries vs
      \/ is_numeric (to_numeric parse (ObjectSeries vs)) = true).
Proof.
  simpl. destruct (mapM (cell_number parse) vs) as [ns|] eqn:H; simpl.
  - split.
    + intros Hnot. destruct Hnot.
      apply (mapM_is_Some (cell_number parse)). now exists ns.
    + destruct (numeric_series ns) as [s|] eqn:Hs; [right | now left].
      now apply is_numeric_numeric_series in Hs.
  - split; [reflexivity | now left].
Qed.

Lemma to_numeric_idempotent (parse : string -> option number) (s : series) :
  to_numeric parse (to_numeric parse s) = to_numeric parse s.
Proof.
  destruct s as [vs| |]; try reflexivity.
  destruct (to_numeric_object parse vs) as [_ [H|H]].
  - now rewrite H at 1.
  - now apply to_numeric_numeric.
Qed.

Lemma filter_label_notin (col : string) (cols : list (string * series)) :
  col ∉ cols.*1 -> List.filter (fun c => String.eqb c.1 col) cols = [].
Proof.
  induction cols as [|[c s] cols IH]; intros Hnot; [reflexivity|]. simpl.
  destruct (String.eqb_spec c col) as [->|Hne].
  - exfalso. apply Hnot. simpl. left.
  - apply IH. intros Hin. apply Hnot. simpl. now right.
Qed.

(** With distinct labels [df[col]] is the column of that name. *)
Lemma getitem_any_unique (ix : list nat) (col : string) (s : series)
    (done rest : list (string * series)) :
  NoDup ((done ++ (col, s) :: rest).*1) ->
  getitem_any {| index := ix; columns := done ++ (col, s) :: rest |} col
  = Ok (OneColumn s).
Proof.
  intros Hnd. rewrite fmap_app in Hnd. apply NoDup_app in Hnd as (_ & Hd & Hr).
  simpl in Hr. apply NoDup_cons in Hr as [Hrest _].
  assert (Hdone : col ∉ done.*1).
  { intros Hin. apply (Hd _ Hin). simpl. left. }
  unfold getitem_any. simpl. rewrite List.filter_app. simpl.
  rewrite String.eqb_refl, (filter_label_notin _ _ Hdone), (filter_label_notin _ _ Hrest).
  reflexivity.
Qed.

Section convert.

Variable parse : string -> option number.

(** The loop of [convert_columns_to_numeric], started when the columns
    [done] are converted already and [todo] are still to visit. *)
Lemma convert_loop (r : ref) (ix : list nat) (todo : list (string * series)) :
  forall (done : list (string * series)) (w : world),
    NoDup ((done ++ todo).*1) ->
    heap w !! r = Some {| index := ix; columns := done ++ todo |} ->
    for_each (convert_column parse r) todo.*1 w
    = (Ok (),
       with_object r
         {| index := ix;
            columns := done ++ (prod_map id (to_numeric parse) <$> todo) |} w).
Proof.
  induction todo as [|[c s] todo IH]; intros done w Hnd Hr.
  - simpl. unfold mret, script_ret, with_object. f_equal.
    rewrite insert_id by exact Hr. now destruct w.
  - assert (Hc : c ∉ done.*1).
    { rewrite fmap_app in Hnd. apply NoDup_app in Hnd as (_ & Hd & _).
      intros Hin. apply (Hd _ Hin). simpl. left. }
    simpl. unfold mbind at 1, script_bind.
    unfold convert_column at 1. unfold mbind at 1, script_bind.
    unfold load at 1. rewrite Hr. simpl.
    unfold mbind at 1, script_bind. unfold lift at 1.
    rewrite (getitem_any_unique ix c s done todo Hnd).
    unfold mbind at 1, script_bind. unfold lift at 1. cbn [pd_to_numeric].
    unfold store, setitem. simpl.
    rewrite assign_column_app by exact Hc.
    rewrite (IH (done ++ [(c, to_numeric parse s)])).
    + unfold with_object. simpl. rewrite insert_insert_eq.
      rewrite <- app_assoc. reflexivity.
    + rewrite <- app_assoc. simpl.
      rewrite fmap_app in Hnd |- *. exact Hnd.
    + simpl. rewrite lookup_insert_eq, <- app_assoc. reflexivity.
Qed.

(** The function as a whole: the object behind [df] is normalized where
    it stands and [df] itself is returned. *)
Lemma convert_columns_to_numeric_spec (r : ref) (w : world) (df : frame) :
  heap w !! r = Some df ->
  unique_labels df ->
  convert_columns_to_numeric parse r w = (Ok r, with_object r (normalize parse df) w).
Proof.
  intros Hr Hnd. destruct df as [ix cols].
  unfold convert_columns_to_numeric.
  unfold mbind at 1, script_bind. unfold load at 1. rewrite Hr. simpl.
  unfold mbind at 1, script_bind. unfold labels. simpl.
  rewrite (convert_loop r ix cols [] w Hnd Hr). reflexivity.
Qed.

End convert.

Lemma lookup_column_fmap (f : series -> series) (col : string) (cols : list (string * series)) :
  lookup_column col (prod_map id f <$> cols) = f <$> lookup_column col cols.
Proof.
  induction cols as [|[c s] cols IH]; [reflexivity|]. simpl.
  destruct (String.eqb c col); [reflexivity | exact IH].
Qed.

Lemma labels_normalize (parse : string -> option number) (df : frame) :
  labels (normalize parse df) = labels df.
Proof.
  unfold labels, normalize. simpl. rewrite <- list_fmap_compose.
  apply list_fmap_ext. now intros i [c s] _.
Qed.

Lemma normalize_idempotent (parse : string -> option number) (df : frame) :
  normalize parse (normalize parse df) = normalize parse df.
Proof.
  unfold normalize. simpl. f_equal. rewrite <- list_fmap_compose.
  apply list_fmap_ext. intros i [c s] _. simpl. unfold prod_map. simpl.
  now rewrite to_numeric_idempotent.
Qed.

Lemma with_object_twice (r : ref) (df df' : frame) (w : world) :
  with_object r df' (with_object r df w) = with_object r df' w.
Proof. unfold with_object. simpl. now rewrite insert_insert_eq. Qed.

Lemma unique_labels_normalize (parse : string -> option number) (df : frame) :
  unique_labels df -> unique_labels (normalize parse df).
Proof. unfold unique_labels. now rewrite labels_normalize. Qed.

Lemma sample_labels_unique : unique_labels Samples.text_table.
Proof. apply (bool_decide_unpack _). vm_compute. reflexivity. Defined.

(** The sample table after the call: [minutes] is still text, [goals] is
    int64 and [xg] float64. *)
Example convert_text_table :
  (convert_columns_to_numeric parse_decimal 0 Samples.text_world).2.(heap) !! 0
  = Some {| index := [0; 1; 2];
            columns := [("player", ObjectSeries [Some "A"; Some "B"; Some "C"]);
                        ("minutes", ObjectSeries [Some "12"; Some "7"; Some "n/a"]);
                        ("goals", IntSeries [0; 0; 1]%Z);
                        ("xg", FloatSeries [Finite (4 # 10); Finite (1 # 1); Finite (225 # 100)])] |}.
Proof. vm_compute. reflexivity. Qed.

(** C5. The normalization is idempotent: a second call on the table the
    first call left returns the same and leaves the same table. *)
Theorem convert_idempotent (parse : string -> option number) (r : ref) (w : world) (df : frame) :
  heap w !! r = Some df ->
  unique_labels df ->
  convert_columns_to_numeric parse r (convert_columns_to_numeric parse r w).2
  = convert_columns_to_numeric parse r w.
Proof.
  intros Hr Hnd.
  rewrite (convert_columns_to_numeric_spec parse r w df Hr Hnd). simpl.
  rewrite (convert_columns_to_numeric_spec parse r _ (normalize parse df)).
  - now rewrite normalize_idempotent, with_object_twice.
  - simpl. apply lookup_insert_eq.
  - now apply unique_labels_normalize.
Qed.

Lemma convert_idempotent_witness :
  convert_columns_to_numeric parse_decimal 0
    (convert_columns_to_numeric parse_decimal 0 Samples.text_world).2
  = convert_columns_to_numeric parse_decimal 0 Samples.text_world.
Proof.
  apply (convert_idempotent parse_decimal 0 Samples.text_world Samples.text_table).
  - reflexivity.
  - exact sample_labels_unique.
Defined.

(** C9. The normalization works in place: the call returns the very
    reference it was given, the object behind it is the normalized
    table afterwards, no object is created and every other object, the
    browser session and the dict stay as they were. *)
Theorem convert_in_place (parse : string -> option number) (r : ref) (w : world) (df : frame) :
  heap w !! r = Some df ->
  unique_labels df ->
  exists w',
    convert_columns_to_numeric parse r w = (Ok r, w')
    /\ heap w' !! r = Some (normalize parse df)
    /\ dom (heap w') = dom (heap w)
    /\ (forall r', r' <> r -> heap w' !! r' = heap w !! r')
    /\ session w' = session w
    /\ dataframes w' = dataframes w.
Proof.
  intros Hr Hnd. exists (with_object r (normalize parse df) w).
  split; [now apply convert_columns_to_numeric_spec|].
  unfold with_object. simpl.
  split; [apply lookup_insert_eq|].
  split.
  { apply dom_insert_lookup_L. now exists df. }
  split; [|split; reflexivity].
  intros r' Hne. now apply lookup_insert_ne.
Qed.

Lemma convert_in_place_witness :
  exists w',
    convert_columns_to_numeric parse_decimal 0 Samples.text_world = (Ok 0, w')
    /\ heap w' !! 0 = Some (normalize parse_decimal Samples.text_table)
    /\ dom (heap w') = dom (heap Samples.text_world)
    /\ (forall r', r' <> 0 -> heap w' !! r' = heap Samples.text_world !! r')
    /\ session w' = session Samples.text_world
    /\ dataframes w' = dataframes Samples.text_world.
Proof.
  apply (convert_in_place parse_decimal 0 Samples.text_world Samples.text_table).
  - reflexivity.
  - exact sample_labels_unique.
Defined.

(** ** The record finder *)

(** C1. On the three-row table with players A, B (no goal, five shots
    each) and C (one goal, nine shots), the record for "goals == 0"
    ranked by shots is 5, held by A and B: C is excluded by the
    predicate and both tied rows are kept.  The same holds when the
    table comes in text and is normalized first. *)
Theorem find_top_tie :
  find_top Samples.tie_table "goals" (VInt 0) "shots" = Ok (VInt 5, ["A"; "B"])
  /\ (let w := (convert_columns_to_numeric parse_decimal 0
                  (Samples.world_of Samples.tie_table_text)).2 in
      heap w !! 0 = Some Samples.tie_table
      /\ find_top (default empty_frame (heap w !! 0)) "goals" (VInt 0) "shots"
         = Ok (VInt 5, ["A"; "B"])).
Proof. split; [|split]; vm_compute; reflexivity. Qed.

Lemma select_series_all_false (mask : list bool) (s : series) :
  Forall (fun b => b = false) mask -> select_series mask s = empty_like s.
Proof.
  intros H. destruct s; simpl; now rewrite select_all_false.
Qed.

Lemma fmap_Ok {A B} (f : A -> B) (m : result A) (b : B) :
  f <$> m = Ok b -> exists a, m = Ok a /\ b = f a.
Proof. destruct m as [a|e]; [|discriminate]. intros [= <-]. now exists a. Qed.

Lemma getitem_getitem_mask (df : frame) (mask : list bool) (col : string) :
  getitem (getitem_mask df mask) col = select_series mask <$> getitem df col.
Proof. apply lookup_column_fmap. Qed.

Lemma getitem_take_rows (df : frame) (positions : list nat) (col : string) :
  getitem (take_rows positions df) col = take_series positions <$> getitem df col.
Proof. apply lookup_column_fmap. Qed.

(** The first statement of a record query on an empty selection: the
    column is missing, or it is text, or [values[0]] has nothing to
    return. *)
Lemma highest_of_nothing (df : frame) (mask : list bool) (rc : string) :
  Forall (fun b => b = false) mask ->
  (top ← nlargest1 rc (getitem_mask df mask); r ← getitem top rc; values0 r)
  = match getitem df rc with
    | Raise e => Raise e
    | Ok (ObjectSeries _) => Raise TypeError
    | Ok _ => Raise IndexError
    end.
Proof.
  intros Hmask. unfold nlargest1.
  rewrite getitem_getitem_mask.
  destruct (getitem df rc) as [r|e] eqn:Hr; [|reflexivity].
  cbn [fmap result_fmap mbind result_bind].
  rewrite (select_series_all_false _ _ Hmask).
  destruct r; cbn -[getitem take_rows getitem_mask]; try reflexivity.
  all: rewrite getitem_take_rows, getitem_getitem_mask, Hr.
  all: cbn [fmap result_fmap mbind result_bind].
  all: rewrite (select_series_all_false _ _ Hmask); reflexivity.
Qed.

Example find_top_scorers :
  find_top Samples.scorers_table "goals" (VInt 0) "shots" = Raise IndexError.
Proof. reflexivity. Qed.

Lemma mapM_Ok {A B} (f : A -> result B) (l : list A) (k : list B) :
  mapM f l = Ok k -> Forall2 (fun x y => f x = Ok y) l k.
Proof.
  revert k. induction l as [|x l IH]; intros k H; simpl in H.
  - injection H as <-. constructor.
  - apply bind_Ok in H as (y & Hy & H).
    apply bind_Ok in H as (k' & Hk' & H).
    injection H as <-. constructor; [exact Hy | now apply IH].
Qed.

(** C7, as stated, fails: the surnames are not deduplicated.  Two
    players who hold the record together and share the surname are both
    listed. *)
Lemma find_top_keeps_duplicates :
  ~ (forall df pc pv rc highest names,
        find_top df pc pv rc = Ok (highest, names) -> NoDup names).
Proof.
  intros H.
  specialize (H Samples.smith_table "goals" (VInt 0) "shots" (VInt 6) ["Smith"; "Smith"] eq_refl).
  apply NoDup_cons in H as [Hnot _]. apply Hnot. left.
Qed.

(** C7, amended.  The surname collection of a record is a sequence with
    one entry per selected row, in table order: the rows whose predicate
    column equals the target and whose rank column equals the record
    value, each mapped to the surname of its player.  Nothing is
    removed, so a surname shared by two selected players appears
    twice. *)
Theorem find_top_surnames (df : frame) (pc : string) (pv : value) (rc : string)
    (highest : value) (names : list string) :
  find_top df pc pv rc = Ok (highest, names) ->
  exists p r players,
    getitem df pc = Ok p
    /\ getitem df rc = Ok r
    /\ getitem df "player" = Ok players
    /\ Forall2 surname_of
         (select (mask_and (eq_scalar p pv) (eq_scalar r highest)) (cells players))
         names.
Proof.
  unfold find_top. intros H.
  apply bind_Ok in H as (p & Hp & H).
  apply bind_Ok in H as (top & _ & H).
  apply bind_Ok in H as (r0 & _ & H).
  apply bind_Ok in H as (hi & _ & H).
  apply bind_Ok in H as (p' & Hp' & H).
  apply bind_Ok in H as (r & Hr & H).
  apply bind_Ok in H as (sel & Hsel & H).
  apply bind_Ok in H as (names' & Hnames & H).
  injection H as -> ->.
  rewrite Hp in Hp'. injection Hp' as <-.
  rewrite getitem_getitem_mask in Hsel.
  apply fmap_Ok in Hsel as (players & Hplayers & ->).
  exists p, r, players. repeat (split; [assumption|]).
  rewrite <- cells_select_series.
  apply mapM_Ok in Hnames.
  eapply Forall2_impl; [exact Hnames|].
  intros v name Hv. destruct v; try discriminate. now exists s.
Qed.

Lemma find_top_surnames_witness :
  exists p r players,
    getitem Samples.smith_table "goals" = Ok p
    /\ getitem Samples.smith_table "shots" = Ok r
    /\ getitem Samples.smith_table "player" = Ok players
    /\ Forall2 surname_of
         (select (mask_and (eq_scalar p (VInt 0)) (eq_scalar r (VInt 6))) (cells players))
         ["Smith"; "Smith"].
Proof.
  apply (find_top_surnames Samples.smith_table "goals" (VInt 0) "shots").
  reflexivity.
Defined.

(** ** The browser session *)

Create HintDb session.

Lemma keeps_session_ret {A} (a : A) : keeps_session (mret a).
Proof. intros w. reflexivity. Qed.

Lemma keeps_session_bind {A B} (m : script A) (f : A -> script B) :
  keeps_session m -> (forall a, keeps_session (f a)) -> keeps_session (m ≫= f).
Proof.
  intros Hm Hf w. unfold mbind, script_bind.
  specialize (Hm w). destruct (m w) as [[a|e] w']; simpl in *.
  - now rewrite Hf.
  - exact Hm.
Qed.

Lemma keeps_session_lift {A} (r : result A) : keeps_session (lift r).
Proof. intros w. reflexivity. Qed.

Lemma keeps_session_load (r : ref) : keeps_session (load r).
Proof. intros w. reflexivity. Qed.

Lemma keeps_session_store (r : ref) (df : frame) : keeps_session (store r df).
Proof. intros w. reflexivity. Qed.

Lemma keeps_session_alloc (df : frame) : keeps_session (alloc df).
Proof. intros w. reflexivity. Qed.

Lemma keeps_session_dataframes_set (key : string) (r : ref) :
  keeps_session (dataframes_set key r).
Proof. intros w. reflexivity. Qed.

Lemma keeps_session_dataframes_get (key : string) : keeps_session (dataframes_get key).
Proof. intros w. reflexivity. Qed.

Lemma keeps_session_for_each {A} (body : A -> script ()) (l : list A) :
  (forall x, keeps_session (body x)) -> keeps_session (for_each body l).
Proof.
  intros Hbody. induction l as [|x l IH]; simpl.
  - apply keeps_session_ret.
  - apply keeps_session_bind; [apply Hbody | intros _; exact IH].
Qed.

#[local] Hint Resolve keeps_session_ret keeps_session_lift keeps_session_load
  keeps_session_store keeps_session_alloc keeps_session_dataframes_set
  keeps_session_dataframes_get : session.

Ltac session_step :=
  repeat first
    [ apply keeps_session_bind; [|intros ?]
    | apply keeps_session_for_each; intros ?
    | solve [auto with session] ].

Lemma keeps_session_scrape_page parse web (p : page) :
  keeps_session (scrape_page parse web p).
Proof.
  unfold scrape_page, scrape_table, convert_columns_to_numeric.
  session_step.
Qed.

(** The statements after [driver.quit()] do not touch the browser. *)
Lemma keeps_session_dataframe (key : string) : keeps_session (dataframe key).
Proof. unfold dataframe. session_step. Qed.

(** C8, as stated, fails: when the scraping of a page raises, the script
    stops there and the browser session is still open. *)
Lemma session_leaks_on_error :
  ~ (forall parse web, session (main parse web initial).2 = false).
Proof.
  intros H. specialize (H parse_decimal Samples.changed_site).
  vm_compute in H. discriminate.
Qed.

Example main_on_flaky_site :
  (main parse_decimal Samples.flaky_site initial).1 = Raise WebDriverException
  /\ session (main parse_decimal Samples.flaky_site initial).2 = true
  /\ dom (heap (main parse_decimal Samples.flaky_site initial).2) = {[0]}.
Proof. repeat split; vm_compute; reflexivity. Qed.

Example main_on_changed_site :
  (main parse_decimal Samples.changed_site initial).1 = Raise AttributeError.
Proof. vm_compute. reflexivity. Qed.

(** C8, amended.  The browser session is released exactly on the runs on
    which every page is scraped and normalized without error: then
    [driver.quit()] runs right after the loop, before the records are
    computed, so the session is closed even if a record query fails
    later.  When the scraping or the normalization of a page raises, the
    script ends with that exception and the session is left open; the
    second part is such a run, on which the table is scraped and its
    normalization raises [TypeError] for a repeated column label. *)
Theorem session_released_after_loop :
  (forall parse web,
      match for_each (scrape_page parse web) pages initial with
      | (Ok _, _) => session (main parse web initial).2 = false
      | (Raise e, w) => main parse web initial = (Raise e, w) /\ session w = true
      end)
  /\ (exists r w1 w2,
        scrape_table Samples.repeated_site
          "https://fbref.com/en/comps/9/stats/Premier-League-Stats" "stats_standard" initial
        = (Ok r, w1)
        /\ convert_columns_to_numeric parse_decimal r w1 = (Raise TypeError, w2)
        /\ main parse_decimal Samples.repeated_site initial = (Raise TypeError, w2)
        /\ session w2 = true).
Proof.
  split.
  - intros parse web. unfold main, main_on.
    pose proof (keeps_session_for_each (scrape_page parse web) pages
                  (keeps_session_scrape_page parse web) initial) as Hloop.
    rewrite run_bind.
    destruct (for_each (scrape_page parse web) pages initial) as [[[]|e] w].
    + rewrite run_bind. unfold driver_quit at 1.
      match goal with
      | |- session (?rest ?w').2 = false =>
          assert (Hrest : keeps_session rest); [|exact (Hrest w')]
      end.
      session_step; apply keeps_session_dataframe.
    + split; [reflexivity | exact Hloop].
  - eexists. eexists. eexists.
    split; [vm_compute; reflexivity|].
    split; [vm_compute; reflexivity|].
    split; vm_compute; reflexivity.
Qed.

(** A run on the small league: the report is printed and the session is
    closed; goals [0, 0, 2] and shots [7, 7, 3] give the record 7, held
    by both players without a goal. *)
Example main_on_league :
  (main parse_decimal Samples.league_site initial).1
  = Ok {| GW := VInt 10;
          shots_no_goal := (VInt 7, ["Smith"; "Smith"]);
          xg_no_goal := (VFloat (Finite (15 # 10)), ["Smith"; "Smith"]);
          xag_no_assist := (VFloat (Finite (9 # 10)), ["Haaland"]);
          kp_no_assist := (VInt 4, ["Smith"]);
          ppa_no_assist := (VInt 5, ["Haaland"]) |}
  /\ session (main parse_decimal Samples.league_site initial).2 = false.
Proof. split; vm_compute; reflexivity. Qed.

(** * Further properties of the code *)

(** ** [split] and the surname reducer *)

Lemma append_nil_r (a : string) : a +:+ EmptyString = a.
Proof.
  induction a as [|x a IH]; [reflexivity|].
  rewrite append_cons. f_equal. exact IH.
Qed.

(** A text without whitespace joins the pending word. *)
Lemma split_from_no_space (s : string) :
  forall word, no_space s = true -> split_from word s = emit (word +:+ s).
Proof.
  unfold no_space. induction s as [|c s IH]; intros word H; simpl in *.
  - destruct word; simpl; [reflexivity|]. now rewrite append_nil_r.
  - apply andb_true_iff in H as [Hc Hs]. apply negb_true_iff in Hc.
    rewrite Hc, (IH _ Hs), append_assoc. reflexivity.
Qed.

(** A whitespace character ends the pending token and starts afresh. *)
Lemma split_from_separator (a : string) (c : ascii) (b : string) :
  isspace c = true ->
  forall word,
    split_from word (a +:+ String c b) = split_from word a ++ split b.
Proof.
  intros Hc. induction a as [|d a IH]; intros word.
  - simpl. rewrite Hc. reflexivity.
  - rewrite append_cons. simpl. destruct (isspace d).
    + rewrite IH, app_assoc. reflexivity.
    + apply IH.
Qed.

Lemma split_has_token (s : string) :
  all_space s = false -> exists token, last (split s) = Some token.
Proof.
  intros H. pose proof (split_from_last s EmptyString) as Hl.
  rewrite H in Hl. destruct Hl as (pre & tok & suf & _ & _ & _ & _ & Hlast).
  exists tok. destruct Hlast as [[_ Hl]|[_ Hl]]; exact Hl.
Qed.

(** X1. A name that is a single word is returned as it is (the case the
    docstring singles out). *)
Theorem extract_surname_single_word (full_name : string) :
  full_name <> EmptyString ->
  no_space full_name = true ->
  extract_surname full_name = Ok full_name.
Proof.
  intros Hne Hns. unfold extract_surname, split.
  rewrite (split_from_no_space _ _ Hns).
  destruct full_name; [contradiction | reflexivity].
Qed.

Lemma extract_surname_single_word_witness :
  extract_surname "Neymar" = Ok "Neymar".
Proof.
  apply (extract_surname_single_word "Neymar"); [discriminate | reflexivity].
Defined.

(** X2. Everything up to a whitespace character is ignored when a token
    follows it: first names, middle names and the spacing between them
    do not change the surname. *)
Theorem extract_surname_ignores_prefix (given : string) (c : ascii) (rest : string) :
  isspace c = true ->
  all_space rest = false ->
  extract_surname (given +:+ String c rest) = extract_surname rest.
Proof.
  intros Hc Hrest. unfold extract_surname, split.
  rewrite (split_from_separator _ _ _ Hc).
  destruct (split_has_token rest Hrest) as (tok & Htok).
  unfold split in Htok. rewrite last_app. unfold split. now rewrite Htok.
Qed.

Lemma extract_surname_ignores_prefix_witness :
  extract_surname ("Erling Braut" +:+ String " " "Haaland") = extract_surname "Haaland".
Proof.
  apply (extract_surname_ignores_prefix "Erling Braut" " " "Haaland"); reflexivity.
Defined.

(** [split] cuts at every whitespace character: the tokens of a text
    are the tokens of what comes before a whitespace character followed
    by the tokens of what comes after it. *)
Lemma split_at_whitespace (a : string) (c : ascii) (b : string) :
  isspace c = true ->
  split (a +:+ String c b) = split a ++ split b.
Proof.
  intros Hc. unfold split at 1 2. now apply split_from_separator.
Qed.

Lemma split_at_whitespace_witness :
  split ("Erling  Braut" +:+ String " " " Haaland ") = split "Erling  Braut" ++ split " Haaland ".
Proof.
  apply (split_at_whitespace "Erling  Braut" " " " Haaland "). reflexivity.
Defined.

(** ** [strip] *)

Lemma string_forall_app (p : ascii -> bool) (a b : string) :
  string_forall p (a +:+ b) = string_forall p a && string_forall p b.
Proof.
  induction a as [|x a IH]; [reflexivity|].
  rewrite append_cons. simpl. rewrite IH. apply andb_assoc.
Qed.

Lemma string_of_list_ascii_snoc (l : list ascii) (c : ascii) :
  string_of_list_ascii (l ++ [c]) = string_of_list_ascii l +:+ String c EmptyString.
Proof.
  induction l as [|x l IH]; [reflexivity|]. simpl. rewrite IH. reflexivity.
Qed.

Lemma string_rev_cons (c : ascii) (s : string) :
  string_rev (String c s) = string_rev s +:+ String c EmptyString.
Proof. unfold string_rev. simpl. apply string_of_list_ascii_snoc. Qed.

Lemma list_ascii_of_string_snoc (s : string) (c : ascii) :
  list_ascii_of_string (s +:+ String c EmptyString) = list_ascii_of_string s ++ [c].
Proof.
  induction s as [|x s IH]; [reflexivity|].
  rewrite append_cons. simpl. now rewrite IH.
Qed.

Lemma string_rev_snoc (s : string) (c : ascii) :
  string_rev (s +:+ String c EmptyString) = String c (string_rev s).
Proof.
  unfold string_rev. rewrite list_ascii_of_string_snoc, rev_unit. reflexivity.
Qed.

Lemma string_forall_rev (p : ascii -> bool) (s : string) :
  string_forall p (string_rev s) = string_forall p s.
Proof.
  induction s as [|c s IH]; [reflexivity|].
  rewrite string_rev_cons, string_forall_app, IH. simpl.
  rewrite andb_true_r. apply andb_comm.
Qed.

Lemma lstrip_all_space (s : string) : all_space s = true -> lstrip s = EmptyString.
Proof.
  unfold all_space. induction s as [|c s IH]; [reflexivity|]. simpl.
  destruct (isspace c); [exact IH | discriminate].
Qed.

Lemma lstrip_snoc (s : string) (c : ascii) :
  lstrip (s +:+ String c EmptyString)
  = if all_space s then lstrip (String c EmptyString)
    else lstrip s +:+ String c EmptyString.
Proof.
  unfold all_space. induction s as [|d s IH]; [reflexivity|].
  rewrite append_cons. simpl. destruct (isspace d); [exact IH | reflexivity].
Qed.

Lemma rstrip_all_space (s : string) : all_space s = true -> rstrip s = EmptyString.
Proof.
  intros H. unfold rstrip. rewrite lstrip_all_space; [reflexivity|].
  unfold all_space. now rewrite string_forall_rev.
Qed.

(** [rstrip] read from the left: a text of whitespace only vanishes, and
    otherwise the first character stays in front of the rest, stripped. *)
Lemma rstrip_cons (c : ascii) (s : string) :
  rstrip (String c s)
  = if all_space (String c s) then EmptyString else String c (rstrip s).
Proof.
  destruct (all_space (String c s)) eqn:Hall.
  - now apply rstrip_all_space.
  - unfold rstrip at 1. rewrite string_rev_cons, lstrip_snoc.
    unfold all_space in *. rewrite string_forall_rev. simpl in Hall.
    destruct (string_forall isspace s) eqn:Hs.
    + rewrite andb_true_r in Hall. simpl. rewrite Hall.
      rewrite rstrip_all_space by exact Hs. reflexivity.
    + rewrite string_rev_snoc. reflexivity.
Qed.

Lemma lstrip_spec (s : string) :
  exists pre,
    s = pre +:+ lstrip s
    /\ all_space pre = true
    /\ (lstrip s = EmptyString
        \/ exists c r, lstrip s = String c r /\ isspace c = false).
Proof.
  unfold all_space. induction s as [|c s IH].
  - exists EmptyString. repeat split. now left.
  - simpl. destruct (isspace c) eqn:Hc.
    + destruct IH as (pre & Hs & Hpre & Hhead).
      exists (String c pre). rewrite append_cons, <- Hs. simpl. rewrite Hc.
      repeat split; assumption.
    + exists EmptyString. repeat split. right. now exists c, s.
Qed.

Lemma rstrip_spec (s : string) :
  exists suf,
    s = rstrip s +:+ suf
    /\ all_space suf = true
    /\ (rstrip s = EmptyString
        \/ exists r c, rstrip s = r +:+ String c EmptyString /\ isspace c = false).
Proof.
  induction s as [|c s IH].
  - exists EmptyString. repeat split. now left.
  - rewrite rstrip_cons. destruct (all_space (String c s)) eqn:Hall.
    + exists (String c s). repeat split; [exact Hall | now left].
    + destruct IH as (suf & Hs & Hsuf & Hlast). exists suf.
      split; [rewrite append_cons; congruence|]. split; [exact Hsuf|].
      right. destruct Hlast as [Hnil|(r & d & Hr & Hd)].
      * exists EmptyString, c. rewrite Hnil. split; [reflexivity|].
        rewrite Hnil in Hs. change (s = suf) in Hs. subst suf.
        unfold all_space in *. simpl in Hall. rewrite Hsuf, andb_true_r in Hall.
        exact Hall.
      * exists (String c r), d. rewrite Hr. now split.
Qed.

(** [strip] removes whitespace at both ends and nothing else. *)
Lemma strip_spec (s : string) :
  exists pre suf,
    s = pre +:+ strip s +:+ suf
    /\ all_space pre = true
    /\ all_space suf = true
    /\ trimmed (strip s).
Proof.
  destruct (lstrip_spec s) as (pre & Hs & Hpre & Hhead).
  destruct (rstrip_spec (lstrip s)) as (suf & Hl & Hsuf & Hlast).
  exists pre, suf. unfold strip.
  split; [congruence|]. split; [exact Hpre|]. split; [exact Hsuf|].
  destruct Hhead as [Hnil|(c & r & Hc & Hnsp)].
  - left. rewrite Hnil. reflexivity.
  - right. rewrite Hc in Hlast |- *. rewrite rstrip_cons in Hlast |- *.
    unfold all_space in *. simpl in *. rewrite Hnsp in *. simpl in *.
    split; [now exists c, (rstrip r)|].
    destruct Hlast as [Hnil|Hlast]; [discriminate | exact Hlast].
Qed.

(** ** The extracted table, row by row *)

Lemma scrape_soup_inv (soup : Soup.node) (table_id : string) (df : frame) :
  scrape_soup soup table_id = Ok df ->
  exists table thead tbody names,
    Soup.find "table" [("id", table_id)] soup = Some table
    /\ Soup.find "thead" [] table = Some thead
    /\ mapM (fun header => Soup.getitem header "data-stat")
            (Soup.find_all "th" [("scope", "col")] thead) = Ok names
    /\ Soup.find "tbody" [] table = Some tbody
    /\ df = dropna (DataFrame (row_data (drop 1 names) <$> Soup.find_all "tr" [] tbody)
                              (drop 1 names)).
Proof.
  unfold scrape_soup. intros H.
  destruct (Soup.find "table" [("id", table_id)] soup) as [table|]; [|discriminate].
  cbn [deref mbind result_bind] in H.
  destruct (Soup.find "thead" [] table) as [thead|] eqn:Hthead; [|discriminate].
  cbn [deref mbind result_bind] in H.
  apply bind_Ok in H as (names & Hnames & H).
  destruct (Soup.find "tbody" [] table) as [tbody|] eqn:Htbody; [|discriminate].
  cbn [deref mbind result_bind] in H. injection H as <-.
  exists table, thead, tbody, names.
  split; [reflexivity|]. split; [exact Hthead|]. split; [exact Hnames|].
  split; [exact Htbody | reflexivity].
Qed.

Lemma select_fmap_filter {A B} (p : A -> bool) (f : A -> B) (l : list A) :
  select (p <$> l) (f <$> l) = f <$> List.filter p l.
Proof.
  induction l as [|x l IH]; [reflexivity|].
  rewrite !fmap_cons. cbn [select List.filter].
  destruct (p x); rewrite IH; reflexivity.
Qed.

Lemma fmap_seq_lookup {A B} (f : nat -> B) (g : A -> B) (l : list A) :
  (forall i x, l !! i = Some x -> f i = g x) ->
  f <$> seq 0 (length l) = g <$> l.
Proof.
  intros H. apply list_eq. intros i. rewrite !list_lookup_fmap.
  destruct (l !! i) as [x|] eqn:Hx.
  - rewrite lookup_seq_lt by (now apply lookup_lt_Some in Hx). simpl.
    now rewrite (H i x Hx).
  - rewrite lookup_seq_ge by (now apply lookup_ge_None in Hx). reflexivity.
Qed.

Lemma forallb_imap {A B} (p : B -> bool) (q : A -> bool) (l : list A) :
  forall g : nat -> A -> B,
    (forall j x, l !! j = Some x -> p (g j x) = q x) ->
    forallb p (imap g l) = forallb q l.
Proof.
  induction l as [|x l IH]; intros g H; [reflexivity|]. simpl.
  rewrite (H 0 x eq_refl). f_equal. apply IH.
  intros j y Hy. apply (H (S j) y Hy).
Qed.

Lemma row_data_lookup (headers : list string) (row : Soup.node) (j : nat) (h : string) :
  headers !! j = Some h -> mjoin (row_data headers row !! j) = cell_text h row.
Proof.
  intros Hj. unfold row_data. rewrite list_lookup_fmap, Hj. reflexivity.
Qed.

(** The frame [scrape_table] builds and filters: the complete rows, with
    one column of cell texts per header. *)
Lemma dropna_DataFrame_row_data (headers : list string) (rows : list Soup.node) :
  dropna (DataFrame (row_data headers <$> rows) headers)
  = {| index := select (complete headers <$> rows) (seq 0 (length rows));
       columns := (fun h => (h, ObjectSeries
                                  ((fun row => cell_text h row)
                                     <$> List.filter (complete headers) rows)))
                    <$> headers |}.
Proof.
  unfold dropna.
  assert (Hmask :
    (fun i => forallb (fun c => notnull_at i c.2)
                (columns (DataFrame (row_data headers <$> rows) headers)))
      <$> seq 0 (length (index (DataFrame (row_data headers <$> rows) headers)))
    = complete headers <$> rows).
  { simpl. rewrite length_seq, length_fmap.
    apply fmap_seq_lookup. intros i row Hrow.
    unfold complete. apply forallb_imap. intros j h Hj.
    unfold notnull_at, cell. simpl.
    rewrite !list_lookup_fmap, Hrow. simpl.
    rewrite (row_data_lookup _ _ _ _ Hj).
    destruct (cell_text h row); reflexivity. }
  rewrite Hmask. unfold getitem_mask. simpl.
  rewrite length_fmap. f_equal.
  rewrite fmap_imap.
  rewrite <- (imap_const (fun h => (h, ObjectSeries
                 ((fun row => cell_text h row) <$> List.filter (complete headers) rows)))).
  apply imap_ext. intros j h Hj. simpl. unfold prod_map. simpl. f_equal. f_equal.
  rewrite <- select_fmap_filter. f_equal.
  rewrite <- list_fmap_compose. apply list_fmap_ext.
  intros i row _. simpl. now apply row_data_lookup.
Qed.

(** X3. What the extraction returns, read off the page: the column
    labels are the [data-stat] names of the header cells without the
    first one; the rows are the body rows that have a [td] for every
    label, in document order; each keeps as row label its position among
    all body rows; and each cell is the trimmed text of the [td] found
    by name. *)
Theorem scrape_soup_table (soup : Soup.node) (table_id : string) (df : frame) :
  scrape_soup soup table_id = Ok df ->
  exists table thead tbody names,
    Soup.find "table" [("id", table_id)] soup = Some table
    /\ Soup.find "thead" [] table = Some thead
    /\ mapM (fun header => Soup.getitem header "data-stat")
            (Soup.find_all "th" [("scope", "col")] thead) = Ok names
    /\ Soup.find "tbody" [] table = Some tbody
    /\ let headers := drop 1 names in
       let rows := Soup.find_all "tr" [] tbody in
       labels df = headers
       /\ index df = select (complete headers <$> rows) (seq 0 (length rows))
       /\ columns df
          = (fun h => (h, ObjectSeries ((fun row => cell_text h row)
                                          <$> List.filter (complete headers) rows)))
              <$> headers.
Proof.
  intros H.
  apply scrape_soup_inv in H as (table & thead & tbody & names & H1 & H2 & H3 & H4 & ->).
  exists table, thead, tbody, names. repeat (split; [assumption|]).
  rewrite dropna_DataFrame_row_data. cbn zeta. split; [|split; reflexivity].
  unfold labels. simpl. rewrite <- list_fmap_compose. apply list_fmap_id.
Qed.

Lemma scrape_soup_table_witness :
  exists df table thead tbody names,
    scrape_soup Samples.shooting_page "stats_shooting" = Ok df
    /\ Soup.find "table" [("id", "stats_shooting")] Samples.shooting_page = Some table
    /\ Soup.find "thead" [] table = Some thead
    /\ mapM (fun header => Soup.getitem header "data-stat")
            (Soup.find_all "th" [("scope", "col")] thead) = Ok names
    /\ Soup.find "tbody" [] table = Some tbody
    /\ let headers := drop 1 names in
       let rows := Soup.find_all "tr" [] tbody in
       labels df = headers
       /\ index df = select (complete headers <$> rows) (seq 0 (length rows))
       /\ columns df
          = (fun h => (h, ObjectSeries ((fun row => cell_text h row)
                                          <$> List.filter (complete headers) rows)))
              <$> headers.
Proof.
  eexists.
  pose proof (scrape_soup_table Samples.shooting_page "stats_shooting" _ eq_refl)
    as (table & thead & tbody & names & H).
  exists table, thead, tbody, names. split; [reflexivity | exact H].
Defined.

Lemma complete_cell (headers : list string) (row : Soup.node) (h : string) :
  complete headers row = true -> h ∈ headers ->
  exists cell,
    Soup.find "td" [("data-stat", h)] row = Some cell
    /\ cell_text h row = Some (strip (Soup.text cell)).
Proof.
  unfold complete. rewrite forallb_forall. intros Hall Hin.
  apply list_elem_of_In in Hin. specialize (Hall h Hin).
  unfold cell_text in *.
  destruct (Soup.find "td" [("data-stat", h)] row) as [cell|]; [|discriminate].
  now exists cell.
Qed.

(** X4. Every cell of an extracted table is a [str] without whitespace
    at either end (possibly the empty [str], for an empty [td]). *)
Theorem scrape_soup_cells_trimmed (soup : Soup.node) (table_id : string) (df : frame) :
  scrape_soup soup table_id = Ok df ->
  forall c s v,
    (c, s) ∈ columns df -> v ∈ cells s ->
    exists t, v = VStr t /\ trimmed t.
Proof.
  intros H c s v Hin Hv.
  apply scrape_soup_inv in H as (table & thead & tbody & names & _ & _ & _ & _ & ->).
  rewrite dropna_DataFrame_row_data in Hin. simpl in Hin.
  apply list_elem_of_fmap in Hin as (h & Heq & Hh). injection Heq as -> ->.
  simpl in Hv. rewrite <- list_fmap_compose in Hv.
  apply list_elem_of_fmap in Hv as (row & -> & Hrow).
  apply list_elem_of_In, filter_In in Hrow as [_ Hcomplete].
  destruct (complete_cell _ _ _ Hcomplete Hh) as (cell & _ & Htext).
  simpl. rewrite Htext. simpl. eexists. split; [reflexivity|].
  destruct (strip_spec (Soup.text cell)) as (_ & _ & _ & _ & _ & Ht). exact Ht.
Qed.

Lemma scrape_soup_cells_trimmed_witness :
  exists df,
    scrape_soup Samples.shooting_page "stats_shooting" = Ok df
    /\ forall c s v, (c, s) ∈ columns df -> v ∈ cells s -> exists t, v = VStr t /\ trimmed t.
Proof.
  eexists. split; [vm_compute; reflexivity|].
  apply (scrape_soup_cells_trimmed Samples.shooting_page "stats_shooting").
  vm_compute; reflexivity.
Defined.

Lemma mapM_Raise {A B} (f : A -> result B) (l : list A) (e : exception) :
  mapM f l = Raise e -> exists x, x ∈ l /\ f x = Raise e.
Proof.
  induction l as [|x l IH]; intros H; simpl in H; [discriminate|].
  destruct (f x) as [y|e'] eqn:Hx; cbn [mbind result_bind] in H.
  - destruct (mapM f l) as [k|e'] eqn:Hl; cbn [mbind result_bind] in H; [discriminate|].
    injection H as ->. destruct (IH eq_refl) as (x' & Hin & Hx').
    exists x'. split; [now right | exact Hx'].
  - injection H as ->. exists x. split; [left | exact Hx].
Qed.

Lemma find_all_tag (name : string) (want : list (string * string)) (n x : Soup.node) :
  x ∈ Soup.find_all name want n -> exists attrs contents, x = Soup.Tag name attrs contents.
Proof.
  unfold Soup.find_all. intros H.
  apply list_elem_of_In, filter_In in H as [_ H].
  destruct x as [t|nm attrs contents]; [discriminate|].
  simpl in H. apply andb_true_iff in H as [Hnm _].
  apply String.eqb_eq in Hnm as ->. now exists attrs, contents.
Qed.

(** X5. The extraction fails in two ways only.  [AttributeError]: the
    table, its [thead] or its [tbody] is not on the page.
    [KeyError]: a column header cell of the table has no [data-stat]
    attribute.  The rows of the body never make it fail. *)
Theorem scrape_soup_errors (soup : Soup.node) (table_id : string) (e : exception) :
  scrape_soup soup table_id = Raise e ->
  (e = AttributeError
   /\ (Soup.find "table" [("id", table_id)] soup = None
       \/ exists table,
           Soup.find "table" [("id", table_id)] soup = Some table
           /\ (Soup.find "thead" [] table = None \/ Soup.find "tbody" [] table = None)))
  \/ (e = KeyError
      /\ exists table thead attrs contents,
          Soup.find "table" [("id", table_id)] soup = Some table
          /\ Soup.find "thead" [] table = Some thead
          /\ Soup.Tag "th" attrs contents ∈ Soup.find_all "th" [("scope", "col")] thead
          /\ Soup.get "data-stat" attrs = None).
Proof.
  unfold scrape_soup. intros H.
  destruct (Soup.find "table" [("id", table_id)] soup) as [table|];
    cbn [deref mbind result_bind] in H.
  2:{ injection H as <-. left. split; [reflexivity | now left]. }
  destruct (Soup.find "thead" [] table) as [thead|] eqn:Hthead;
    cbn [deref mbind result_bind] in H.
  2:{ injection H as <-. left. split; [reflexivity|]. right. exists table. auto. }
  destruct (mapM _ (Soup.find_all "th" [("scope", "col")] thead)) as [names|e'] eqn:Hnames;
    cbn [mbind result_bind] in H.
  - destruct (Soup.find "tbody" [] table) as [tbody|] eqn:Htbody;
      cbn [deref mbind result_bind] in H; [discriminate|].
    injection H as <-. left. split; [reflexivity|]. right. exists table. auto.
  - injection H as ->. right.
    apply mapM_Raise in Hnames as (x & Hin & Hx).
    destruct (find_all_tag _ _ _ _ Hin) as (attrs & contents & ->).
    simpl in Hx. destruct (Soup.get "data-stat" attrs) eqn:Hget; [discriminate|].
    injection Hx as <-. split; [reflexivity|].
    exists table, thead, attrs, contents. auto.
Qed.

Lemma scrape_soup_errors_witness :
  (AttributeError = AttributeError
   /\ (Soup.find "table" [("id", "stats_shooting")] Samples.headless_page = None
       \/ exists table,
           Soup.find "table" [("id", "stats_shooting")] Samples.headless_page = Some table
           /\ (Soup.find "thead" [] table = None \/ Soup.find "tbody" [] table = None)))
  \/ (AttributeError = KeyError
      /\ exists table thead attrs contents,
          Soup.find "table" [("id", "stats_shooting")] Samples.headless_page = Some table
          /\ Soup.find "thead" [] table = Some thead
          /\ Soup.Tag "th" attrs contents ∈ Soup.find_all "th" [("scope", "col")] thead
          /\ Soup.get "data-stat" attrs = None).
Proof.
  apply (scrape_soup_errors Samples.headless_page "stats_shooting" AttributeError).
  reflexivity.
Defined.

(** ** Objects and the loop over the pages *)

(** A successful [scrape_table]: a reference not in use, bound to the
    extracted table. *)
Lemma scrape_table_Ok web (url table_id : string) (w w' : world) (r : ref) :
  scrape_table web url table_id w = (Ok r, w') ->
  heap w !! r = None
  /\ dataframes w' = dataframes w
  /\ exists soup df,
      web url = Ok soup
      /\ scrape_soup soup table_id = Ok df
      /\ heap w' = <[r := df]> (heap w).
Proof.
  rewrite scrape_table_run.
  destruct (web url) as [soup|e]; [|discriminate].
  destruct (scrape_soup soup table_id) as [df|e] eqn:Hdf; [|discriminate].
  cbn zeta. intros [= <- <-]. split.
  - apply not_elem_of_dom. apply is_fresh.
  - split; [reflexivity|]. now exists soup, df.
Qed.

(** X6. [scrape_table] either fails and leaves the world as it was, with
    the exception of the browser or of the extraction, or returns a
    reference that was not in use, bound to the extracted table; the
    objects that existed, the session and the dict are untouched. *)
Theorem scrape_table_fresh web (url table_id : string) (w : world) :
  match scrape_table web url table_id w with
  | (Ok r, w') =>
      heap w !! r = None
      /\ (exists soup df,
            web url = Ok soup
            /\ scrape_soup soup table_id = Ok df
            /\ heap w' = <[r := df]> (heap w))
      /\ (forall r0 x, heap w !! r0 = Some x -> heap w' !! r0 = Some x)
      /\ session w' = session w
      /\ dataframes w' = dataframes w
  | (Raise e, w') =>
      w' = w
      /\ (web url = Raise e
          \/ exists soup, web url = Ok soup /\ scrape_soup soup table_id = Raise e)
  end.
Proof.
  rewrite scrape_table_run.
  destruct (web url) as [soup|e]; [|split; [reflexivity | now left]].
  destruct (scrape_soup soup table_id) as [df|e] eqn:Hdf.
  - cbn zeta.
    assert (Hfresh : heap w !! fresh (dom (heap w)) = None).
    { apply not_elem_of_dom. apply is_fresh. }
    split; [exact Hfresh|].
    split; [exists soup, df; auto|].
    split; [|split; reflexivity].
    intros r0 x Hx. simpl. rewrite lookup_insert_ne; [exact Hx|].
    intros <-. congruence.
  - split; [reflexivity|]. right. now exists soup.
Qed.

Lemma stable_bind (R : world -> world -> Prop) {A B} (m : script A) (f : A -> script B) :
  Transitive R ->
  stable R m -> (forall a, stable R (f a)) -> stable R (m ≫= f).
Proof.
  intros HR Hm Hf w. rewrite run_bind.
  specialize (Hm w). destruct (m w) as [[a|e] w1]; simpl in Hm.
  - etransitivity; [exact Hm | apply Hf].
  - exact Hm.
Qed.

Lemma stable_for_each (R : world -> world -> Prop) {A} (body : A -> script ()) (l : list A) :
  Reflexive R -> Transitive R ->
  (forall x, stable R (body x)) -> stable R (for_each body l).
Proof.
  intros Hrefl Htrans Hbody. induction l as [|x l IH]; simpl.
  - intros w. apply Hrefl.
  - apply stable_bind; [exact Htrans | apply Hbody | intros _; exact IH].
Qed.

#[local] Instance extends_refl : Reflexive extends.
Proof. intros w. split; [reflexivity | auto]. Qed.

#[local] Instance extends_trans : Transitive extends.
Proof.
  intros w1 w2 w3 [Hd1 Hh1] [Hd2 Hh2]. split; [congruence | auto].
Qed.

Lemma extends_convert parse (r : ref) :
  stable extends (convert_columns_to_numeric parse r).
Proof.
  unfold convert_columns_to_numeric.
  apply stable_bind; [apply _ | intros w; apply extends_refl | intros obj].
  apply stable_bind; [apply _ | | intros _ w; apply extends_refl].
  apply stable_for_each; [apply _ | apply _ | intros col].
  unfold convert_column.
  apply stable_bind; [apply _ | intros w; apply extends_refl | intros obj'].
  apply stable_bind; [apply _ | intros w; apply extends_refl | intros arg].
  apply stable_bind; [apply _ | intros w; apply extends_refl | intros s].
  intros w. split; [reflexivity|]. simpl. intros r' Hr'.
  destruct (decide (r = r')) as [->|Hne].
  - rewrite lookup_insert_eq. eauto.
  - now rewrite lookup_insert_ne.
Qed.

Lemma convert_returns_argument parse (r r' : ref) (w w' : world) :
  convert_columns_to_numeric parse r w = (Ok r', w') -> r' = r.
Proof.
  unfold convert_columns_to_numeric. rewrite !run_bind. simpl.
  rewrite run_bind.
  destruct (for_each _ _ w) as [[[]|e] w1]; [|discriminate].
  now intros [= <- _].
Qed.

(** One round of the loop that ends well: a new object, bound to the
    table identifier of the page. *)
Lemma scrape_page_Ok parse web (p : page) (w w' : world) :
  scrape_page parse web p w = (Ok (), w') ->
  exists r,
    heap w !! r = None
    /\ is_Some (heap w' !! r)
    /\ (forall r0, is_Some (heap w !! r0) -> is_Some (heap w' !! r0))
    /\ dataframes w' = <[table_id p := r]> (dataframes w)
    /\ exists soup df, web (url p) = Ok soup /\ scrape_soup soup (table_id p) = Ok df.
Proof.
  unfold scrape_page. rewrite run_bind.
  destruct (scrape_table web (url p) (table_id p) w) as [[r|e] w1] eqn:Hst;
    [|discriminate].
  apply scrape_table_Ok in Hst as (Hfresh & Hdict & soup & df & Hweb & Hdf & Hheap).
  rewrite run_bind.
  pose proof (extends_convert parse r w1) as [Hd2 Hh2].
  destruct (convert_columns_to_numeric parse r w1) as [[r'|e] w2] eqn:Hconv;
    [|discriminate].
  apply convert_returns_argument in Hconv as ->.
  simpl in Hd2, Hh2. unfold dataframes_set. intros [= <-]. simpl.
  exists r. split; [exact Hfresh|]. split.
  { apply Hh2. rewrite Hheap, lookup_insert_eq. eauto. }
  split.
  { intros r0 Hr0. apply Hh2. rewrite Hheap.
    destruct (decide (r = r0)) as [->|Hne].
    - rewrite lookup_insert_eq. eauto.
    - now rewrite lookup_insert_ne. }
  split; [now rewrite Hd2, Hdict | now exists soup, df].
Qed.

Lemma for_each_cons_Ok {A} (body : A -> script ()) (x : A) (l : list A) (w w' : world) :
  for_each body (x :: l) w = (Ok (), w') ->
  exists w1, body x w = (Ok (), w1) /\ for_each body l w1 = (Ok (), w').
Proof.
  simpl. rewrite run_bind.
  destruct (body x w) as [[[]|e] w1]; [|discriminate].
  intros H. now exists w1.
Qed.

(** X7. When the loop over the pages ends without an exception, every
    table identifier of the pages is a key of [dataframes], every
    reference in the dict denotes an object, and the tables do not share
    objects: what one key is bound to is not reachable from another. *)
Theorem loop_binds_tables parse web (ps : list page) (w w' : world) :
  well_bound w ->
  no_alias w ->
  for_each (scrape_page parse web) ps w = (Ok (), w') ->
  well_bound w'
  /\ no_alias w'
  /\ forall p, p ∈ ps -> is_Some (dataframes w' !! table_id p).
Proof.
  revert w. induction ps as [|p ps IH]; intros w Hwb Hna H.
  - injection H as <-. split; [exact Hwb|]. split; [exact Hna|].
    intros p Hp. inversion Hp.
  - apply for_each_cons_Ok in H as (w1 & Hp & Hrest).
    apply scrape_page_Ok in Hp as (r & Hfresh & Hr & Hkeep & Hdict & _).
    assert (Hwb1 : well_bound w1).
    { intros key r0. rewrite Hdict.
      destruct (decide (table_id p = key)) as [->|Hne].
      - rewrite lookup_insert_eq. now intros [= <-].
      - rewrite lookup_insert_ne by exact Hne. intros Hk. apply Hkeep.
        now apply (Hwb key). }
    assert (Hna1 : no_alias w1).
    { intros k1 k2 r0. rewrite Hdict.
      destruct (decide (table_id p = k1)) as [<-|Hne1];
        destruct (decide (table_id p = k2)) as [<-|Hne2];
        rewrite ?lookup_insert_eq, ?lookup_insert_ne by assumption.
      - reflexivity.
      - intros [= <-] Hk2. apply Hwb in Hk2 as [df Hdf]. congruence.
      - intros Hk1 [= <-]. apply Hwb in Hk1 as [df Hdf]. congruence.
      - apply Hna. }
    destruct (IH w1 Hwb1 Hna1 Hrest) as (Hwb' & Hna' & Hkeys).
    split; [exact Hwb'|]. split; [exact Hna'|].
    intros q Hq. apply elem_of_cons in Hq as [->|Hq]; [|now apply Hkeys].
    clear IH Hkeys. 
    assert (Hbound : is_Some (dataframes w1 !! table_id p)).
    { rewrite Hdict, lookup_insert_eq. eauto. }
    revert Hbound Hrest. generalize (table_id p). clear.
    revert w1. induction ps as [|q ps IH]; intros w1 key Hb H.
    + now injection H as <-.
    + apply for_each_cons_Ok in H as (w2 & Hq & Hrest).
      apply scrape_page_Ok in Hq as (r & _ & _ & _ & Hdict & _).
      apply (IH w2 key); [|exact Hrest]. rewrite Hdict.
      destruct (decide (table_id q = key)) as [->|Hne].
      * rewrite lookup_insert_eq. eauto.
      * now rewrite lookup_insert_ne.
Qed.

Lemma loop_binds_tables_witness :
  exists w',
    for_each (scrape_page parse_decimal Samples.league_site) pages initial = (Ok (), w')
    /\ well_bound w'
    /\ no_alias w'
    /\ forall p, p ∈ pages -> is_Some (dataframes w' !! table_id p).
Proof.
  eexists. split; [vm_compute; reflexivity|].
  apply (loop_binds_tables parse_decimal Samples.league_site pages initial).
  - intros key r H. vm_compute in H. discriminate.
  - intros k1 k2 r H. vm_compute in H. discriminate.
  - vm_compute. reflexivity.
Defined.

Lemma for_each_Ok_inv {A} (body : A -> script ()) (l : list A) :
  forall w w',
    for_each body l w = (Ok (), w') ->
    Forall (fun x => exists w1 w2, body x w1 = (Ok (), w2)) l.
Proof.
  induction l as [|x l IH]; intros w w' H; [constructor|].
  apply for_each_cons_Ok in H as (w1 & Hx & Hrest).
  constructor; [now exists w, w1 | exact (IH _ _ Hrest)].
Qed.

(** X8. A report is printed only when every one of the six pages was
    fetched and its table extracted: this holds also for the defense,
    playing-time and miscellaneous tables, which the report never
    reads. *)
Theorem main_needs_every_page parse web (r : report) (w' : world) :
  main parse web initial = (Ok r, w') ->
  forall p, p ∈ pages ->
  exists soup df, web (url p) = Ok soup /\ scrape_soup soup (table_id p) = Ok df.
Proof.
  unfold main, main_on. rewrite run_bind.
  destruct (for_each (scrape_page parse web) pages initial) as [[[]|e] w1] eqn:Hloop;
    [|discriminate].
  intros _ p Hp.
  apply for_each_Ok_inv in Hloop. rewrite Forall_forall in Hloop.
  destruct (Hloop p Hp) as (wa & wb & Hpage).
  apply scrape_page_Ok in Hpage as (_ & _ & _ & _ & _ & H). exact H.
Qed.

Lemma main_needs_every_page_witness :
  exists soup df,
    Samples.league_site "https://fbref.com/en/comps/9/misc/Premier-League-Stats" = Ok soup
    /\ scrape_soup soup "stats_misc" = Ok df.
Proof.
  assert (Hrun : exists r w', main parse_decimal Samples.league_site initial = (Ok r, w')).
  { eexists. eexists. vm_compute. reflexivity. }
  destruct Hrun as (r & w' & Hrun).
  apply (main_needs_every_page parse_decimal Samples.league_site r w' Hrun
           (Page "https://fbref.com/en/comps/9/misc/Premier-League-Stats"
                 "stats_misc" "miscellaneous_stats.csv")).
  unfold pages. repeat (first [apply list_elem_of_here | apply list_elem_of_further]).
Defined.

(** ** The record and its holders *)

Section first_max.

Context {A : Type} (lt : A -> A -> bool) (le : A -> A -> Prop).
Hypothesis le_refl : forall a, le a a.
Hypothesis le_trans : forall a b c, le a b -> le b c -> le a c.
Hypothesis lt_le : forall a b, lt a b = true -> le a b.
Hypothesis nlt_le : forall a b, lt a b = false -> le b a.

Lemma first_max_spec (l : list (nat * A)) :
  forall best,
    first_max lt best l ∈ best :: l
    /\ forall y, y ∈ best :: l -> le y.2 (first_max lt best l).2.
Proof.
  induction l as [|x l IH]; intros best; simpl.
  - split; [left|]. intros y Hy. apply list_elem_of_singleton in Hy as ->. apply le_refl.
  - destruct (IH (if lt best.2 x.2 then x else best)) as [Hin Hmax].
    split.
    + apply elem_of_cons in Hin as [Hin|Hin]; [|right; now right].
      rewrite Hin. destruct (lt best.2 x.2); [right; left | left].
    + intros y Hy.
      assert (Hnew : le x.2 (first_max lt (if lt best.2 x.2 then x else best) l).2
                     /\ le best.2 (first_max lt (if lt best.2 x.2 then x else best) l).2).
      { pose proof (Hmax _ (list_elem_of_here _ _)) as Hb.
        destruct (lt best.2 x.2) eqn:Hlt.
        - split; [exact Hb|]. eapply le_trans; [apply lt_le; exact Hlt | exact Hb].
        - split; [|exact Hb]. eapply le_trans; [apply nlt_le; exact Hlt | exact Hb]. }
      apply elem_of_cons in Hy as [->|Hy]; [apply Hnew|].
      apply elem_of_cons in Hy as [->|Hy]; [apply Hnew|].
      apply Hmax. now right.
Qed.

Lemma argmax_spec (l : list (nat * A)) :
  match argmax lt l with
  | None => l = []
  | Some i => exists x, (i, x) ∈ l /\ forall y, y ∈ l -> le y.2 x
  end.
Proof.
  destruct l as [|b l]; [reflexivity|]. simpl.
  destruct (first_max_spec l b) as [Hin Hmax].
  exists (first_max lt b l).2. split; [|exact Hmax].
  now destruct (first_max lt b l).
Qed.

End first_max.

Lemma elem_of_enumerate {A} (l : list A) (i : nat) (x : A) :
  (i, x) ∈ enumerate l <-> l !! i = Some x.
Proof.
  unfold enumerate. rewrite elem_of_lookup_imap. split.
  - intros (j & y & [= -> ->] & H). exact H.
  - intros H. now exists i, x.
Qed.

Lemma select_elem_of {A} (mask : list bool) (l : list A) (i : nat) (x : A) :
  mask !! i = Some true -> l !! i = Some x -> x ∈ select mask l.
Proof.
  revert l i. induction mask as [|b mask IH]; intros [|y l] [|i] Hm Hl;
    simplify_eq/=.
  - left.
  - destruct b; [right|]; now apply (IH l i).
Qed.

Lemma take_singleton {A} (l : list A) (i : nat) :
  take [i] l = match l !! i with Some x => [x] | None => [] end.
Proof. unfold take. simpl. destruct (l !! i); reflexivity. Qed.

(** The first statement of a record query on an int64 rank column: the
    largest entry among the selected rows, or [IndexError] when no row
    is selected. *)
Lemma highest_int (df : frame) (mask : list bool) (rc : string) (zs : list Z) :
  getitem df rc = Ok (IntSeries zs) ->
  (top ← nlargest1 rc (getitem_mask df mask); r ← getitem top rc; values0 r)
  = match argmax Z.ltb (enumerate (select mask zs)) with
    | Some i =>
        match select mask zs !! i with
        | Some m => Ok (VInt m)
        | None => Raise IndexError
        end
    | None => Raise IndexError
    end.
Proof.
  intros Hr. unfold nlargest1.
  rewrite getitem_getitem_mask, Hr.
  cbn [fmap result_fmap mbind result_bind select_series largest_position].
  rewrite getitem_take_rows, getitem_getitem_mask, Hr.
  cbn [fmap result_fmap mbind result_bind select_series take_series].
  destruct (argmax Z.ltb (enumerate (select mask zs))) as [i|]; [|reflexivity].
  unfold values0. cbn [cells].
  change (option_list (Some i)) with [i]. rewrite take_singleton.
  destruct (select mask zs !! i); reflexivity.
Qed.

(** What a successful query on an int64 rank column returns as record. *)
Lemma find_top_int_inv (df : frame) (pc : string) (pv : value) (rc : string)
    (p : series) (zs : list Z) (highest : value) (names : list string) :
  getitem df pc = Ok p ->
  getitem df rc = Ok (IntSeries zs) ->
  find_top df pc pv rc = Ok (highest, names) ->
  exists m players,
    highest = VInt m
    /\ m ∈ select (eq_scalar p pv) zs
    /\ (forall z, z ∈ select (eq_scalar p pv) zs -> (z <= m)%Z)
    /\ getitem df "player" = Ok players
    /\ apply_extract_surname
         (select_series (mask_and (eq_scalar p pv) (eq_scalar (IntSeries zs) (VInt m))) players)
       = Ok names.
Proof.
  intros Hp Hr. unfold find_top. rewrite Hp, Hr.
  cbn [mbind result_bind].
  pose proof (highest_int df (eq_scalar p pv) rc zs Hr) as Hhi.
  cbn [mbind result_bind] in Hhi.
  destruct (nlargest1 rc (getitem_mask df (eq_scalar p pv))) as [top|e];
    cbn [mbind result_bind] in Hhi |- *; [|discriminate].
  destruct (getitem top rc) as [r0|e]; cbn [mbind result_bind] in Hhi |- *; [|discriminate].
  destruct (values0 r0) as [hi|e]; cbn [mbind result_bind] in Hhi |- *; [|discriminate].
  pose proof (argmax_spec Z.ltb Z.le Z.le_refl Z.le_trans
                (fun a b H => Z.lt_le_incl _ _ (proj1 (Z.ltb_lt a b) H))
                (fun a b H => proj1 (Z.ltb_ge a b) H)
                (enumerate (select (eq_scalar p pv) zs))) as Hmax.
  destruct (argmax Z.ltb (enumerate (select (eq_scalar p pv) zs))) as [i|]; [|discriminate].
  destruct Hmax as (x & Hx & Hmax). apply elem_of_enumerate in Hx.
  rewrite Hx in Hhi. injection Hhi as ->.
  rewrite getitem_getitem_mask.
  destruct (getitem df "player") as [players|e];
    cbn [fmap result_fmap mbind result_bind]; [|discriminate].
  destruct (apply_extract_surname _) as [names'|e] eqn:Hnames;
    cbn [mbind result_bind]; [|discriminate].
  intros [= <-]. subst names'. exists x, players.
  split; [reflexivity|]. split; [now apply list_elem_of_lookup_2 in Hx|].
  split; [|split; [reflexivity | exact Hnames]].
  intros z Hz. apply list_elem_of_lookup in Hz as (j & Hj).
  apply (Hmax (j, z)). now apply elem_of_enumerate.
Qed.

Lemma qualifies_mask (p : series) (pv : value) (i : nat) :
  eq_scalar p pv !! i = Some true <-> qualifies p pv i.
Proof.
  unfold qualifies, eq_scalar, cell. rewrite list_lookup_fmap. split.
  - destruct (cells p !! i) as [v|]; [|discriminate]. intros [= H]. now exists v.
  - intros (v & -> & H). simpl. now rewrite H.
Qed.

Lemma getitem_elem_of (df : frame) (col : string) (s : series) :
  getitem df col = Ok s -> (col, s) ∈ columns df.
Proof.
  unfold getitem. induction (columns df) as [|[c t] cols IH]; [discriminate|]. simpl.
  destruct (String.eqb_spec c col) as [->|Hne].
  - intros [= ->]. left.
  - intros H. right. now apply IH.
Qed.

Lemma aligned_size (df : frame) (col : string) (s : series) :
  aligned df -> getitem df col = Ok s -> length (cells s) = length (index df).
Proof.
  unfold aligned. rewrite Forall_forall. intros Hal Hs.
  apply getitem_elem_of in Hs. rewrite <- size_cells. exact (Hal _ Hs).
Qed.

(** X9. On an int64 rank column, the record of a successful query is the
    largest rank value among the rows that satisfy the predicate: some
    qualifying row has it and no qualifying row has more. *)
Theorem find_top_maximum (df : frame) (pc : string) (pv : value) (rc : string)
    (p : series) (zs : list Z) (highest : value) (names : list string) :
  getitem df pc = Ok p ->
  getitem df rc = Ok (IntSeries zs) ->
  find_top df pc pv rc = Ok (highest, names) ->
  exists m,
    highest = VInt m
    /\ (exists i, qualifies p pv i /\ zs !! i = Some m)
    /\ (forall i z, qualifies p pv i -> zs !! i = Some z -> (z <= m)%Z).
Proof.
  intros Hp Hr H.
  destruct (find_top_int_inv _ _ _ _ _ _ _ _ Hp Hr H) as (m & players & -> & Hin & Hmax & _).
  exists m. split; [reflexivity|]. split.
  - apply list_elem_of_lookup in Hin as (k & Hk).
    apply select_lookup in Hk as (i & Hmask & Hi).
    exists i. split; [now apply qualifies_mask | exact Hi].
  - intros i z Hq Hz. apply Hmax. apply qualifies_mask in Hq.
    now apply (select_elem_of _ _ i).
Qed.

Lemma find_top_maximum_witness :
  exists m,
    VInt 6 = VInt m
    /\ (exists i, qualifies (IntSeries [0; 0; 3]%Z) (VInt 0) i
                  /\ [6; 6; 9]%Z !! i = Some m)
    /\ (forall i z, qualifies (IntSeries [0; 0; 3]%Z) (VInt 0) i ->
                    [6; 6; 9]%Z !! i = Some z -> (z <= m)%Z).
Proof.
  apply (find_top_maximum Samples.smith_table "goals" (VInt 0) "shots"
           (IntSeries [0; 0; 3]%Z) [6; 6; 9]%Z (VInt 6) ["Smith"; "Smith"]);
    reflexivity.
Defined.

(** X10. On a table whose columns all have one cell per row, a
    successful query on an int64 rank column names at least one
    player. *)
Theorem find_top_has_holder (df : frame) (pc : string) (pv : value) (rc : string)
    (p : series) (zs : list Z) (highest : value) (names : list string) :
  aligned df ->
  getitem df pc = Ok p ->
  getitem df rc = Ok (IntSeries zs) ->
  find_top df pc pv rc = Ok (highest, names) ->
  names <> [].
Proof.
  intros Hal Hp Hr H.
  destruct (find_top_int_inv _ _ _ _ _ _ _ _ Hp Hr H)
    as (m & players & -> & Hin & _ & Hplayers & Hnames).
  apply list_elem_of_lookup in Hin as (k & Hk).
  apply select_lookup in Hk as (i & Hmask & Hi).
  assert (Hlen : i < length (cells players)).
  { rewrite (aligned_size _ _ _ Hal Hplayers), <- (aligned_size _ _ _ Hal Hr).
    simpl. rewrite length_fmap. now apply lookup_lt_Some in Hi. }
  apply lookup_lt_is_Some in Hlen as [v Hv].
  assert (Hsel : v ∈ select (mask_and (eq_scalar p pv) (eq_scalar (IntSeries zs) (VInt m)))
                            (cells players)).
  { apply (select_elem_of _ _ i); [|exact Hv].
    unfold mask_and. rewrite lookup_zip_with, Hmask. simpl.
    unfold eq_scalar. simpl. rewrite !list_lookup_fmap, Hi. simpl.
    now rewrite Z.eqb_refl. }
  unfold apply_extract_surname in Hnames. rewrite cells_select_series in Hnames.
  apply mapM_Ok in Hnames. intros ->. apply Forall2_nil_inv_r in Hnames.
  rewrite Hnames in Hsel. inversion Hsel.
Qed.

Lemma find_top_has_holder_witness :
  aligned Samples.smith_table
  /\ find_top Samples.smith_table "goals" (VInt 0) "shots" = Ok (VInt 6, ["Smith"; "Smith"])
  /\ ["Smith"; "Smith"] <> [].
Proof.
  assert (Hal : aligned Samples.smith_table) by repeat constructor.
  split; [exact Hal|]. split; [reflexivity|].
  apply (find_top_has_holder Samples.smith_table "goals" (VInt 0) "shots"
           (IntSeries [0; 0; 3]%Z) [6; 6; 9]%Z (VInt 6) ["Smith"; "Smith"]);
    [exact Hal | reflexivity | reflexivity | reflexivity].
Defined.

Lemma find_top_unfold (df : frame) (pc : string) (pv : value) (rc : string) :
  find_top df pc pv rc
  = (p ← getitem df pc;
     highest ← (top ← nlargest1 rc (getitem_mask df (eq_scalar p pv));
                r ← getitem top rc;
                values0 r);
     p ← getitem df pc;
     r ← getitem df rc;
     players ← getitem (getitem_mask df (mask_and (eq_scalar p pv) (eq_scalar r highest)))
                       "player";
     names ← apply_extract_surname players;
     Ok (highest, names)).
Proof.
  unfold find_top. destruct (getitem df pc) as [p|]; [|reflexivity].
  cbn [mbind result_bind].
  destruct (nlargest1 rc (getitem_mask df (eq_scalar p pv))) as [top|]; [|reflexivity].
  cbn [mbind result_bind].
  destruct (getitem top rc) as [r|]; reflexivity.
Qed.

Lemma mapM_total {A B} (f : A -> result B) (l : list A) :
  Forall (fun x => exists y, f x = Ok y) l -> exists k, mapM f l = Ok k.
Proof.
  induction 1 as [|x l [y Hy] _ [k Hk]]; [now exists []|].
  exists (y :: k). simpl. rewrite Hy. cbn [mbind result_bind].
  rewrite Hk. reflexivity.
Qed.

Lemma select_subset {A} (mask : list bool) (l : list A) (x : A) :
  x ∈ select mask l -> x ∈ l.
Proof.
  intros H. apply list_elem_of_lookup in H as (k & Hk).
  apply select_lookup in Hk as (i & _ & Hi). now apply list_elem_of_lookup_2 in Hi.
Qed.

(** X11. On a table with one cell per row in every column, an int64
    rank column and a player column of proper names, the query returns a
    record exactly when some row satisfies the predicate. *)
Theorem find_top_succeeds (df : frame) (pc : string) (pv : value) (rc : string)
    (p : series) (zs : list Z) (players : list (option string)) :
  aligned df ->
  getitem df pc = Ok p ->
  getitem df rc = Ok (IntSeries zs) ->
  getitem df "player" = Ok (ObjectSeries players) ->
  Forall proper_name players ->
  (exists record, find_top df pc pv rc = Ok record) <-> (exists i, qualifies p pv i).
Proof.
  intros Hal Hp Hr Hpl Hnames. split.
  - intros ([highest names] & H).
    destruct (find_top_int_inv _ _ _ _ _ _ _ _ Hp Hr H) as (m & _ & _ & Hin & _).
    apply list_elem_of_lookup in Hin as (k & Hk).
    apply select_lookup in Hk as (i & Hmask & _).
    exists i. now apply qualifies_mask.
  - intros (i & Hq). apply qualifies_mask in Hq.
    assert (Hi : i < length zs).
    { apply lookup_lt_Some in Hq.
      change (length zs) with (size (IntSeries zs)). rewrite size_cells.
      rewrite (aligned_size _ _ _ Hal Hr), <- (aligned_size _ _ _ Hal Hp).
      unfold eq_scalar in Hq. now rewrite length_fmap in Hq. }
    apply lookup_lt_is_Some in Hi as [z Hz].
    pose proof (select_elem_of _ _ _ _ Hq Hz) as Hsel.
    rewrite find_top_unfold, Hp. cbn [mbind result_bind].
    rewrite (highest_int _ _ _ _ Hr).
    pose proof (argmax_spec Z.ltb Z.le Z.le_refl Z.le_trans
                  (fun a b H => Z.lt_le_incl _ _ (proj1 (Z.ltb_lt a b) H))
                  (fun a b H => proj1 (Z.ltb_ge a b) H)
                  (enumerate (select (eq_scalar p pv) zs))) as Hmax.
    destruct (argmax Z.ltb (enumerate (select (eq_scalar p pv) zs))) as [k|].
    2:{ apply (f_equal length) in Hmax. unfold enumerate in Hmax.
        rewrite length_imap in Hmax. destruct (select (eq_scalar p pv) zs);
          [inversion Hsel | discriminate]. }
    destruct Hmax as (m & Hm & _). apply elem_of_enumerate in Hm. rewrite Hm.
    cbn [mbind result_bind]. rewrite Hr. cbn [mbind result_bind].
    rewrite getitem_getitem_mask, Hpl. cbn [fmap result_fmap mbind result_bind].
    destruct (mapM_total
                (fun v => match v with
                          | VStr full_name => extract_surname full_name
                          | _ => Raise AttributeError
                          end)
                (cells (select_series
                          (mask_and (eq_scalar p pv) (eq_scalar (IntSeries zs) (VInt m)))
                          (ObjectSeries players)))) as [names Hk].
    { rewrite cells_select_series. apply Forall_forall. intros v Hv.
      apply select_subset in Hv. simpl in Hv.
      apply list_elem_of_fmap in Hv as (o & -> & Ho).
      rewrite Forall_forall in Hnames. destruct (Hnames o Ho) as (s & -> & Hs).
      simpl. unfold extract_surname.
      destruct (split_has_token s Hs) as (tok & ->). now exists tok. }
    exists (VInt m, names). unfold apply_extract_surname. rewrite Hk. reflexivity.
Qed.

Lemma find_top_succeeds_witness :
  (exists record, find_top Samples.smith_table "goals" (VInt 0) "shots" = Ok record)
  <-> (exists i, qualifies (IntSeries [0; 0; 3]%Z) (VInt 0) i).
Proof.
  apply (find_top_succeeds Samples.smith_table "goals" (VInt 0) "shots"
           (IntSeries [0; 0; 3]%Z) [6; 6; 9]%Z
           [Some "Adam Smith"; Some "John Smith"; Some "Erling Haaland"]);
    try reflexivity.
  - repeat constructor.
  - repeat constructor; eexists; (split; [reflexivity | reflexivity]).
Defined.

(** ** Records after normalization *)

Lemma getitem_normalize (parse : string -> option number) (df : frame) (col : string) :
  getitem (normalize parse df) col = to_numeric parse <$> getitem df col.
Proof. apply lookup_column_fmap. Qed.

Lemma heap_after_convert parse (r : ref) (w : world) (df : frame) :
  heap w !! r = Some df ->
  unique_labels df ->
  heap (convert_columns_to_numeric parse r w).2 !! r = Some (normalize parse df).
Proof.
  intros Hr Hnd. rewrite (convert_columns_to_numeric_spec parse r w df Hr Hnd).
  simpl. apply lookup_insert_eq.
Qed.

(** X12. One cell of the rank column that does not parse as a number
    (a thousands separator, a dash) keeps the column as text through the
    normalization, and the record query then fails with [TypeError],
    whatever the rows: [nlargest] refuses an object column. *)
Theorem text_rank_column_fails parse (r : ref) (w : world) (df : frame)
    (pc : string) (pv : value) (rc : string) (p : series) (vs : list (option string)) :
  heap w !! r = Some df ->
  unique_labels df ->
  getitem df pc = Ok p ->
  getitem df rc = Ok (ObjectSeries vs) ->
  ~ Forall (parses parse) vs ->
  exists df',
    heap (convert_columns_to_numeric parse r w).2 !! r = Some df'
    /\ find_top df' pc pv rc = Raise TypeError.
Proof.
  intros Hr Hnd Hp Hrc Hbad. exists (normalize parse df).
  split; [now apply heap_after_convert|].
  unfold find_top. rewrite (getitem_normalize parse df pc), Hp.
  cbn [fmap result_fmap mbind result_bind].
  unfold nlargest1. rewrite getitem_getitem_mask, (getitem_normalize parse df rc), Hrc.
  cbn [fmap result_fmap mbind result_bind].
  destruct (to_numeric_object parse vs) as (Hsame & _).
  rewrite (Hsame Hbad). reflexivity.
Qed.

Lemma text_rank_column_fails_witness :
  exists df',
    heap (convert_columns_to_numeric parse_decimal 0 Samples.text_world).2 !! 0 = Some df'
    /\ find_top df' "goals" (VInt 0) "minutes" = Raise TypeError.
Proof.
  apply (text_rank_column_fails parse_decimal 0 Samples.text_world Samples.text_table
           "goals" (VInt 0) "minutes"
           (ObjectSeries [Some "0"; Some "0"; Some "1"])
           [Some "12"; Some "7"; Some "n/a"]).
  - reflexivity.
  - exact sample_labels_unique.
  - reflexivity.
  - reflexivity.
  - intros H. apply Forall_cons in H as [_ H]. apply Forall_cons in H as [_ H].
    apply Forall_cons in H as [[n Hn] _]. vm_compute in Hn. discriminate.
Defined.

(** X13. One cell of the predicate column that does not parse keeps that
    column as text, and a text cell never equals a number: the query
    then selects no row and, with a numeric rank column, dies with
    [IndexError] even if the table shows players with the value. *)
Theorem text_predicate_column_fails parse (r : ref) (w : world) (df : frame)
    (pc : string) (n : Z) (rc : string) (vs : list (option string)) (ranks : series) :
  heap w !! r = Some df ->
  unique_labels df ->
  getitem df pc = Ok (ObjectSeries vs) ->
  ~ Forall (parses parse) vs ->
  getitem df rc = Ok ranks ->
  is_numeric (to_numeric parse ranks) = true ->
  exists df',
    heap (convert_columns_to_numeric parse r w).2 !! r = Some df'
    /\ find_top df' pc (VInt n) rc = Raise IndexError.
Proof.
  intros Hr Hnd Hp Hbad Hrc Hnum. exists (normalize parse df).
  split; [now apply heap_after_convert|].
  rewrite find_top_unfold, (getitem_normalize parse df pc), Hp.
  cbn [fmap result_fmap mbind result_bind].
  destruct (to_numeric_object parse vs) as (Hsame & _).
  rewrite (Hsame Hbad).
  rewrite highest_of_nothing.
  - rewrite (getitem_normalize parse df rc), Hrc. cbn [fmap result_fmap].
    destruct (to_numeric parse ranks); [discriminate | reflexivity | reflexivity].
  - unfold eq_scalar. apply Forall_fmap. simpl. apply Forall_fmap.
    apply Forall_forall. intros [s|] _; reflexivity.
Qed.

Lemma text_predicate_column_fails_witness :
  exists df',
    heap (convert_columns_to_numeric parse_decimal 0 Samples.text_world).2 !! 0 = Some df'
    /\ find_top df' "minutes" (VInt 7) "goals" = Raise IndexError.
Proof.
  apply (text_predicate_column_fails parse_decimal 0 Samples.text_world Samples.text_table
           "minutes" 7%Z "goals"
           [Some "12"; Some "7"; Some "n/a"]
           (ObjectSeries [Some "0"; Some "0"; Some "1"])).
  - reflexivity.
  - exact sample_labels_unique.
  - reflexivity.
  - intros H. apply Forall_cons in H as [_ H]. apply Forall_cons in H as [_ H].
    apply Forall_cons in H as [[m Hm] _]. vm_compute in Hm. discriminate.
  - reflexivity.
  - reflexivity.
Defined.

Lemma mapM_option_length {A B} (f : A -> option B) (l : list A) (k : list B) :
  mapM f l = Some k -> length k = length l.
Proof. intros H. apply mapM_Some in H. symmetry. exact (Forall2_length _ _ _ H). Qed.

Lemma size_to_numeric (parse : string -> option number) (s : series) :
  size (to_numeric parse s) = size s.
Proof.
  destruct s as [vs| |]; try reflexivity. simpl.
  destruct (mapM (cell_number parse) vs) as [ns|] eqn:H; [|reflexivity]. simpl.
  apply mapM_option_length in H. unfold numeric_series.
  destruct (existsb out_of_range ns || uint64_conflict ns); [reflexivity|].
  destruct (mapM as_int ns) as [zs|] eqn:Hz; simpl.
  - apply mapM_option_length in Hz. congruence.
  - now rewrite length_fmap.
Qed.

(** X14. The normalization keeps the shape of the table: afterwards
    every column still has one cell per row. *)
Theorem convert_keeps_aligned parse (r : ref) (w : world) (df : frame) :
  heap w !! r = Some df ->
  unique_labels df ->
  aligned df ->
  exists df',
    heap (convert_columns_to_numeric parse r w).2 !! r = Some df'
    /\ aligned df'.
Proof.
  intros Hr Hnd Hal. exists (normalize parse df).
  split; [now apply heap_after_convert|].
  unfold aligned, normalize in *. simpl. rewrite Forall_fmap.
  eapply Forall_impl; [exact Hal|]. intros [c s] Hs. simpl in *.
  now rewrite size_to_numeric.
Qed.

Lemma convert_keeps_aligned_witness :
  exists df',
    heap (convert_columns_to_numeric parse_decimal 0 Samples.text_world).2 !! 0 = Some df'
    /\ aligned df'.
Proof.
  apply (convert_keeps_aligned parse_decimal 0 Samples.text_world Samples.text_table).
  - reflexivity.
  - exact sample_labels_unique.
  - repeat constructor.
Defined.

(** ** The game week *)

Lemma max_from_int (rest : list Z) :
  forall best,
  exists m,
    max_from (VInt best) (VInt <$> rest) = Ok (VInt m)
    /\ m ∈ best :: rest
    /\ forall z, z ∈ best :: rest -> (z <= m)%Z.
Proof.
  induction rest as [|x rest IH]; intros best.
  - exists best. split; [reflexivity|]. split; [left|].
    intros z Hz. apply list_elem_of_singleton in Hz as ->. reflexivity.
  - rewrite fmap_cons. cbn [max_from value_gt mbind result_bind].
    destruct (IH (if (best <? x)%Z then x else best)) as (m & Hm & Hin & Hmax).
    exists m. split.
    { destruct (best <? x)%Z; exact Hm. }
    assert (Hboth : (x <= m)%Z /\ (best <= m)%Z).
    { pose proof (Hmax _ (list_elem_of_here _ _)) as Hb.
      destruct (best <? x)%Z eqn:Hlt.
      - apply Z.ltb_lt in Hlt. lia.
      - apply Z.ltb_ge in Hlt. lia. }
    split.
    + apply elem_of_cons in Hin as [->|Hin]; [|right; now right].
      destruct (best <? x)%Z; [right; left | left].
    + intros z Hz.
      apply elem_of_cons in Hz as [->|Hz]; [apply Hboth|].
      apply elem_of_cons in Hz as [->|Hz]; [apply Hboth|].
      apply Hmax. now right.
Qed.

(** X15. The game week computed by [max] over an int64 column is the
    largest entry of the column; over a column without rows [max] raises
    [ValueError]. *)
Theorem builtin_max_int (zs : list Z) :
  match zs with
  | [] => builtin_max (IntSeries zs) = Raise ValueError
  | _ :: _ =>
      exists m,
        builtin_max (IntSeries zs) = Ok (VInt m)
        /\ m ∈ zs
        /\ forall z, z ∈ zs -> (z <= m)%Z
  end.
Proof.
  destruct zs as [|z zs]; [reflexivity|].
  unfold builtin_max. cbn [cells]. rewrite fmap_cons. apply max_from_int.
Qed.

(** ** Records on a float64 rank column *)

Lemma elem_of_finite_enumerate (fs : list float64) (i : nat) (q : Q) :
  (i, q) ∈ omap finite_part (enumerate fs) <-> fs !! i = Some (Finite q).
Proof.
  rewrite list_elem_of_omap. split.
  - intros ([j f] & Hin & Hf). apply elem_of_enumerate in Hin.
    unfold finite_part in Hf. simpl in Hf. destruct f; [discriminate|].
    now injection Hf as -> ->.
  - intros H. exists (i, Finite q). split; [now apply elem_of_enumerate | reflexivity].
Qed.

Lemma Q_lt_le (a b : Q) : negb (Qle_bool b a) = true -> (a <= b)%Q.
Proof.
  intros H. apply negb_true_iff in H.
  destruct (Qlt_le_dec a b) as [Hlt|Hle]; [now apply Qlt_le_weak|].
  apply Qle_bool_iff in Hle. congruence.
Qed.

Lemma Q_nlt_le (a b : Q) : negb (Qle_bool b a) = false -> (b <= a)%Q.
Proof. intros H. apply negb_false_iff in H. now apply Qle_bool_iff. Qed.

(** The first statement of a record query on a float64 rank column when
    some selected row holds a number. *)
Lemma highest_float (df : frame) (mask : list bool) (rc : string) (fs : list float64)
    (i : nat) (q : Q) :
  getitem df rc = Ok (FloatSeries fs) ->
  select mask fs !! i = Some (Finite q) ->
  exists k m,
    (top ← nlargest1 rc (getitem_mask df mask); r ← getitem top rc; values0 r)
    = Ok (VFloat (Finite m))
    /\ select mask fs !! k = Some (Finite m)
    /\ forall j x, select mask fs !! j = Some (Finite x) -> (x <= m)%Q.
Proof.
  intros Hr Hi. unfold nlargest1.
  rewrite getitem_getitem_mask, Hr.
  cbn [fmap result_fmap mbind result_bind select_series largest_position].
  pose proof (argmax_spec (fun p q => negb (Qle_bool q p)) Qle Qle_refl Qle_trans
                Q_lt_le Q_nlt_le (omap finite_part (enumerate (select mask fs)))) as Hmax.
  destruct (argmax _ (omap finite_part (enumerate (select mask fs)))) as [k|].
  2:{ apply elem_of_finite_enumerate in Hi. rewrite Hmax in Hi. inversion Hi. }
  destruct Hmax as (m & Hm & Hmax). apply elem_of_finite_enumerate in Hm.
  exists k, m. cbn [mbind result_bind].
  rewrite getitem_take_rows, getitem_getitem_mask, Hr.
  cbn [fmap result_fmap mbind result_bind select_series take_series].
  unfold values0. cbn [cells]. change (option_list (Some k)) with [k].
  rewrite take_singleton, Hm. split; [reflexivity|]. split; [reflexivity|].
  intros j x Hj. apply (Hmax (j, x)). now apply elem_of_finite_enumerate.
Qed.

(** X16. On a float64 rank column, when a row that satisfies the
    predicate holds a number, the record of a successful query is a
    number held by a qualifying row, and no qualifying row holds a
    larger one. *)
Theorem find_top_maximum_float (df : frame) (pc : string) (pv : value) (rc : string)
    (p : series) (fs : list float64) (highest : value) (names : list string)
    (i : nat) (q : Q) :
  getitem df pc = Ok p ->
  getitem df rc = Ok (FloatSeries fs) ->
  find_top df pc pv rc = Ok (highest, names) ->
  qualifies p pv i ->
  fs !! i = Some (Finite q) ->
  exists m,
    highest = VFloat (Finite m)
    /\ (exists j, qualifies p pv j /\ fs !! j = Some (Finite m))
    /\ (forall j x, qualifies p pv j -> fs !! j = Some (Finite x) -> (x <= m)%Q).
Proof.
  intros Hp Hr H Hq Hi.
  apply qualifies_mask in Hq.
  pose proof (select_elem_of _ _ _ _ Hq Hi) as Hsel.
  apply list_elem_of_lookup in Hsel as (i' & Hi').
  destruct (highest_float df (eq_scalar p pv) rc fs i' q Hr Hi') as (k & m & Hhi & Hk & Hmax).
  rewrite find_top_unfold, Hp in H. cbn [mbind result_bind] in H.
  rewrite Hhi in H. cbn [mbind result_bind] in H.
  apply bind_Ok in H as (r & _ & H).
  apply bind_Ok in H as (players & _ & H).
  apply bind_Ok in H as (names' & _ & H).
  injection H as <- _. exists m. split; [reflexivity|]. split.
  - apply select_lookup in Hk as (j & Hj & Hfj).
    exists j. split; [now apply qualifies_mask | exact Hfj].
  - intros j x Hqj Hx. apply qualifies_mask in Hqj.
    pose proof (select_elem_of _ _ _ _ Hqj Hx) as Hin.
    apply list_elem_of_lookup in Hin as (j' & Hj'). exact (Hmax j' x Hj').
Qed.

Lemma find_top_maximum_float_witness :
  exists m,
    VFloat (Finite (15 # 10)) = VFloat (Finite m)
    /\ (exists j, qualifies (IntSeries [0; 0; 2]%Z) (VInt 0) j
                  /\ [Finite (15 # 10); Finite (15 # 10); Finite (41 # 10)] !! j
                     = Some (Finite m))
    /\ (forall j x, qualifies (IntSeries [0; 0; 2]%Z) (VInt 0) j ->
                    [Finite (15 # 10); Finite (15 # 10); Finite (41 # 10)] !! j
                    = Some (Finite x) -> (x <= m)%Q).
Proof.
  apply (find_top_maximum_float Samples.xg_table "goals" (VInt 0) "xg"
           (IntSeries [0; 0; 2]%Z)
           [Finite (15 # 10); Finite (15 # 10); Finite (41 # 10)]
           (VFloat (Finite (15 # 10))) ["Smith"; "Smith"] 0 (15 # 10)).
  - reflexivity.
  - reflexivity.
  - reflexivity.
  - exists (VInt 0). split; reflexivity.
  - reflexivity.
Defined.

(** ** The tables the records are computed from *)

#[local] Instance only_changes_refl (r : ref) : Reflexive (only_changes r).
Proof. intros w r0 _. reflexivity. Qed.

#[local] Instance only_changes_trans (r : ref) : Transitive (only_changes r).
Proof. intros w1 w2 w3 H1 H2 r0 Hne. rewrite (H2 r0 Hne). now apply H1. Qed.

Lemma only_changes_convert parse (r : ref) :
  stable (only_changes r) (convert_columns_to_numeric parse r).
Proof.
  unfold convert_columns_to_numeric.
  apply stable_bind; [apply _ | intros w; apply only_changes_refl | intros obj].
  apply stable_bind; [apply _ | | intros _ w; apply only_changes_refl].
  apply stable_for_each; [apply _ | apply _ | intros col].
  unfold convert_column.
  apply stable_bind; [apply _ | intros w; apply only_changes_refl | intros obj'].
  apply stable_bind; [apply _ | intros w; apply only_changes_refl | intros arg].
  apply stable_bind; [apply _ | intros w; apply only_changes_refl | intros s].
  intros w r0 Hne. simpl. now apply lookup_insert_ne.
Qed.

(** One round of the loop that ends well, in full: the extracted table
    becomes a new object, normalized, and bound to the table identifier
    of the page; the other objects and bindings are as before. *)
Lemma scrape_page_effect parse web (p : page) (w w' : world) :
  scrape_page parse web p w = (Ok (), w') ->
  exists r soup df,
    heap w !! r = None
    /\ web (url p) = Ok soup
    /\ scrape_soup soup (table_id p) = Ok df
    /\ dataframes w' = <[table_id p := r]> (dataframes w)
    /\ (forall r0, r0 <> r -> heap w' !! r0 = heap w !! r0)
    /\ (unique_labels df -> heap w' !! r = Some (normalize parse df)).
Proof.
  unfold scrape_page. rewrite run_bind.
  destruct (scrape_table web (url p) (table_id p) w) as [[r|e] w1] eqn:Hst;
    [|discriminate].
  apply scrape_table_Ok in Hst as (Hfresh & Hdict & soup & df & Hweb & Hdf & Hheap).
  rewrite run_bind.
  pose proof (extends_convert parse r w1) as [Hd2 _].
  pose proof (only_changes_convert parse r w1) as Honly.
  pose proof (heap_after_convert parse r w1 df) as Hnorm.
  destruct (convert_columns_to_numeric parse r w1) as [[r'|e] w2] eqn:Hconv;
    [|discriminate].
  apply convert_returns_argument in Hconv as ->.
  simpl in Hd2, Honly, Hnorm. unfold dataframes_set. intros [= <-]. simpl.
  exists r, soup, df. repeat (split; [assumption|]).
  split; [now rewrite Hd2, Hdict|]. split.
  - intros r0 Hne. rewrite (Honly r0 Hne), Hheap. now apply lookup_insert_ne.
  - intros Hnd. apply Hnorm; [|exact Hnd]. rewrite Hheap. apply lookup_insert_eq.
Qed.

(** A table of a page, once bound to its normalized extraction, stays so
    while the loop goes over pages with other table identifiers. *)
Lemma loop_keeps_table parse web (ps : list page) (key : string) (r : ref) (df : frame) :
  forall w w',
    key ∉ table_id <$> ps ->
    dataframes w !! key = Some r ->
    heap w !! r = Some df ->
    for_each (scrape_page parse web) ps w = (Ok (), w') ->
    dataframes w' !! key = Some r /\ heap w' !! r = Some df.
Proof.
  induction ps as [|q ps IH]; intros w w' Hkey Hd Hh H.
  - injection H as <-. now split.
  - apply for_each_cons_Ok in H as (w1 & Hq & Hrest).
    apply scrape_page_effect in Hq as (r' & _ & _ & Hfresh & _ & _ & Hdict & Hother & _).
    rewrite fmap_cons in Hkey. apply not_elem_of_cons in Hkey as [Hne Hkey].
    apply (IH w1 w' Hkey); [| |exact Hrest].
    + rewrite Hdict. rewrite lookup_insert_ne by congruence. exact Hd.
    + rewrite Hother; [exact Hh|]. intros ->. congruence.
Qed.

(** X17. After a loop that ends without an exception over pages with
    pairwise different table identifiers, [dataframes] binds the
    identifier of each page to what was extracted from that page,
    normalized (for a table with distinct column labels): later pages
    change neither the binding nor the table. *)
Theorem loop_tables parse web (ps : list page) (w w' : world) :
  NoDup (table_id <$> ps) ->
  for_each (scrape_page parse web) ps w = (Ok (), w') ->
  forall p, p ∈ ps ->
  exists r soup df,
    web (url p) = Ok soup
    /\ scrape_soup soup (table_id p) = Ok df
    /\ dataframes w' !! table_id p = Some r
    /\ (unique_labels df -> heap w' !! r = Some (normalize parse df)).
Proof.
  revert w. induction ps as [|q ps IH]; intros w Hnd H p Hp; [inversion Hp|].
  rewrite fmap_cons in Hnd. apply NoDup_cons in Hnd as [Hq Hnd].
  apply for_each_cons_Ok in H as (w1 & Hpage & Hrest).
  apply elem_of_cons in Hp as [->|Hp]; [|exact (IH w1 Hnd Hrest p Hp)].
  apply scrape_page_effect in Hpage
    as (r & soup & df & _ & Hweb & Hdf & Hdict & _ & Hnorm).
  exists r, soup, df. split; [exact Hweb|]. split; [exact Hdf|].
  assert (Hbound : dataframes w1 !! table_id q = Some r).
  { rewrite Hdict. apply lookup_insert_eq. }
  destruct (decide (NoDup (labels df))) as [Hu|Hu].
  - destruct (loop_keeps_table parse web ps (table_id q) r (normalize parse df)
                w1 w' Hq Hbound (Hnorm Hu) Hrest) as [Hd Hh].
    split; [exact Hd | intros _; exact Hh].
  - split; [|intros Hu'; now destruct Hu].
    clear Hnorm IH. revert Hbound Hrest Hq. generalize (table_id q). clear.
    revert w1. induction ps as [|q ps IH]; intros w1 key Hb H Hkey.
    + now injection H as <-.
    + apply for_each_cons_Ok in H as (w2 & Hq & Hrest).
      apply scrape_page_effect in Hq as (r' & _ & _ & _ & _ & _ & Hdict & _).
      rewrite fmap_cons in Hkey. apply not_elem_of_cons in Hkey as [Hne Hkey].
      apply (IH w2 key); [|exact Hrest | exact Hkey].
      rewrite Hdict. now rewrite lookup_insert_ne by congruence.
Qed.

Lemma pages_distinct : NoDup (table_id <$> pages).
Proof. apply (bool_decide_unpack _). vm_compute. reflexivity. Defined.

Lemma loop_tables_witness :
  exists w',
    for_each (scrape_page parse_decimal Samples.league_site) pages initial = (Ok (), w')
    /\ forall p, p ∈ pages ->
       exists r soup df,
         Samples.league_site (url p) = Ok soup
         /\ scrape_soup soup (table_id p) = Ok df
         /\ dataframes w' !! table_id p = Some r
         /\ (unique_labels df -> heap w' !! r = Some (normalize parse_decimal df)).
Proof.
  eexists. split; [vm_compute; reflexivity|].
  apply (loop_tables parse_decimal Samples.league_site pages initial).
  - exact pages_distinct.
  - vm_compute. reflexivity.
Defined.

(** ** Revised statements on empty selections *)

Lemma getitem_Raise (df : frame) (col : string) (e : exception) :
  getitem df col = Raise e -> e = KeyError.
Proof.
  unfold getitem. induction (columns df) as [|[c s] cols IH]; simpl.
  - now intros [= <-].
  - destruct (String.eqb c col); [discriminate | exact IH].
Qed.

(** C2, as stated, fails: no exception stands for the empty selection.
    A table without a qualifying row raises [IndexError] when the rank
    column is numeric and [TypeError] when it is text, so no single
    exception is raised on every empty selection. *)
Lemma no_empty_result_error :
  ~ exists EmptyResultError,
      forall df pc pv rc,
        no_row_satisfies df pc pv -> find_top df pc pv rc = Raise EmptyResultError.
Proof.
  intros (e & H).
  assert (H1 : no_row_satisfies Samples.scorers_table "goals" (VInt 0)).
  { intros p [= <-]. repeat constructor. }
  assert (H2 : no_row_satisfies Samples.unranked_table "goals" (VInt 0)).
  { intros p [= <-]. repeat constructor. }
  pose proof (H Samples.scorers_table "goals" (VInt 0) "shots" H1) as E1.
  pose proof (H Samples.unranked_table "goals" (VInt 0) "minutes" H2) as E2.
  vm_compute in E1, E2. congruence.
Qed.

(** C2, amended.  When no row satisfies the predicate, the record finder
    fails and returns no value, whatever the table, the columns and the
    target.  The exception is a generic one of Python: [IndexError],
    from [values[0]] on the empty selection, when both columns exist and
    the rank column is numeric; [TypeError] when the rank column is
    text; [KeyError] when a column is missing. *)
Theorem find_top_empty_raises (df : frame) (pc : string) (pv : value) (rc : string) :
  no_row_satisfies df pc pv ->
  find_top df pc pv rc = Raise (empty_selection_error df pc rc).
Proof.
  intros Hno. rewrite find_top_unfold. unfold empty_selection_error.
  destruct (getitem df pc) as [p|e] eqn:Hp; cbn [mbind result_bind].
  2:{ now rewrite (getitem_Raise _ _ _ Hp). }
  rewrite highest_of_nothing.
  - destruct (getitem df rc) as [[]|e] eqn:Hrc; cbn [mbind result_bind]; try reflexivity.
    now rewrite (getitem_Raise _ _ _ Hrc).
  - unfold eq_scalar. apply Forall_fmap. exact (Hno p Hp).
Qed.

Lemma find_top_empty_raises_witness :
  no_row_satisfies Samples.scorers_table "goals" (VInt 0)
  /\ find_top Samples.scorers_table "goals" (VInt 0) "shots" = Raise IndexError
  /\ no_row_satisfies Samples.unranked_table "goals" (VInt 0)
  /\ find_top Samples.unranked_table "goals" (VInt 0) "minutes" = Raise TypeError.
Proof.
  assert (H1 : no_row_satisfies Samples.scorers_table "goals" (VInt 0)).
  { intros p [= <-]. repeat constructor. }
  assert (H2 : no_row_satisfies Samples.unranked_table "goals" (VInt 0)).
  { intros p [= <-]. repeat constructor. }
  split; [exact H1|].
  split; [exact (find_top_empty_raises Samples.scorers_table "goals" (VInt 0) "shots" H1)|].
  split; [exact H2|].
  exact (find_top_empty_raises Samples.unranked_table "goals" (VInt 0) "minutes" H2).
Defined.

(** ** Reading number literals *)

Ltac ascii_cases c :=
  destruct c as [[] [] [] [] [] [] [] []]; vm_compute; intros; try discriminate;
  repeat split; reflexivity.


Lemma point_not_exp (c : ascii) : is_point c = true -> is_exp c = false.
Proof. ascii_cases c. Qed.



























(** ** Columns of literals *)















(** ** Repeated labels *)







(** ** The normalization, column by column *)




